(** * Via tech assistant: the client-side interaction machine

    A shallow embedding of [src/frontend/script.js].  The script is a set of
    event handlers over three module-level variables and six DOM elements;
    every handler is embedded as a function on an explicit [State], split at
    each [await] into the part that runs before the suspension and the
    continuation that runs when the awaited promise settles.  The browser
    (microphone, MediaRecorder, FileReader, fetch) is the environment: what
    it decides arrives as an [Event]. *)

From Stdlib Require Import ZArith Ascii String.
From Stdlib.Strings Require Import Byte.
From stdpp Require Import base tactics option list strings pretty.

Local Open Scope Z_scope.

(* ================================================================== *)
(** ** JavaScript values and strings *)
(* ================================================================== *)

Module JS.

(** A number, as far as the script can tell one from another: whether it
    is zero (ToBoolean; [-0] is zero too, and JSON has no NaN) and the
    text Number::toString gives it (["42"], ["0.1"], ["1e+21"]), which is
    the engine's.  The script does no arithmetic. *)
Record number := { nonzero : bool; text : string }.

(** The values [response.json()] can produce, plus [undefined] for a
    property that is not there. *)
#[warnings="-register-all"]
Inductive value :=
| Undefined
| Null
| Bool (b : bool)
| Num (n : number)
| Str (s : string)
| Arr (items : list value)
| Obj (fields : list (string * value)).

(** ToBoolean. *)
Definition truthy (v : value) : bool :=
  match v with
  | Undefined | Null => false
  | Bool b => b
  | Num n => nonzero n
  | Str s => negb (String.eqb s "")
  | Arr _ | Obj _ => true
  end.

(** [a || b] and [a && b] on values. *)
Definition or (a b : value) : value := if truthy a then a else b.
Definition and (a b : value) : value := if truthy a then b else a.

(** Array.prototype.join with separator [","]. *)
Fixpoint join (parts : list string) : string :=
  match parts with
  | [] => ""
  | [p] => p
  | p :: rest => p +:+ "," +:+ join rest
  end.

(** Own-property lookup in a parsed object: the first binding of the key. *)
Fixpoint lookup_field (k : string) (fields : list (string * value)) : option value :=
  match fields with
  | [] => None
  | (k', v) :: rest => if String.eqb k k' then Some v else lookup_field k rest
  end.

(** ToString; [None] is the TypeError it throws.  A parsed object prints
    as ["[object Object]"] through [Object.prototype.toString], unless it
    has a [toString] property of its own: that is never callable, and
    neither [valueOf] gives a primitive.  An array is the join of its
    elements' texts, [null] and [undefined] counting as empty. *)
Fixpoint to_string (v : value) : option string :=
  match v with
  | Undefined => Some "undefined"
  | Null => Some "null"
  | Bool true => Some "true"
  | Bool false => Some "false"
  | Num n => Some (text n)
  | Str s => Some s
  | Arr items =>
      join <$>
        (fix elements (l : list value) : option (list string) :=
           match l with
           | [] => Some []
           | x :: rest =>
               match (match x with
                      | Undefined | Null => Some ""
                      | _ => to_string x
                      end) with
               | None => None
               | Some t => cons t <$> elements rest
               end
           end) items
  | Obj fields =>
      match lookup_field "toString" fields with
      | Some _ => None
      | None => Some "[object Object]"
      end
  end.

(** The message of the TypeError a failed ToString throws (V8's wording). *)
Definition conversion_error : string := "Cannot convert object to primitive value".

(** [v.k] for a key that no prototype defines ([transcript], [audioUrl],
    [error], [message]): [None] is the TypeError that reading a property
    of [null] or [undefined] throws. *)
Definition get (v : value) (k : string) : option value :=
  match v with
  | Undefined | Null => None
  | Obj fields => Some (default Undefined (lookup_field k fields))
  | _ => Some Undefined
  end.

(** The message of that TypeError (V8's wording). *)
Definition type_error_message (v : value) (k : string) : string :=
  "Cannot read properties of "
  +:+ (match v with Undefined => "undefined" | _ => "null" end)
  +:+ " (reading '" +:+ k +:+ "')".

(** [s.split(c)] for a one-character separator. *)
Fixpoint split (c : ascii) (s : string) : list string :=
  match s with
  | EmptyString => [EmptyString]
  | String a rest =>
      if Ascii.eqb a c then EmptyString :: split c rest
      else match split c rest with
           | [] => [String a EmptyString]
           | h :: t => String a h :: t
           end
  end.

End JS.

(* ================================================================== *)
(** ** Blobs, data URLs and base64 *)
(* ================================================================== *)

(** A chunk of recorded audio: the bytes of [event.data]. *)
Definition Chunk := list byte.

Record Blob := { blob_bytes : list byte; blob_type : string }.

(** [new Blob(parts, { type })]: the parts' bytes in order.  (The
    constructor lower-cases [type]; the types the script passes are lower
    case already, and nothing below depends on the case.) *)
Definition new_Blob (parts : list Chunk) (type : string) : Blob :=
  {| blob_bytes := concat parts; blob_type := type |}.



Module Base64.

(** Six bits, most significant first. *)
Definition sextet := (bool * bool * bool * bool * bool * bool)%type.

Definition bit (b : bool) : nat := if b then 1%nat else 0%nat.

Definition index (s : sextet) : nat :=
  let '(b5, b4, b3, b2, b1, b0) := s in
  (32 * bit b5 + 16 * bit b4 + 8 * bit b3 + 4 * bit b2 + 2 * bit b1 + bit b0)%nat.

Definition of_index (n : nat) : sextet :=
  (Nat.testbit n 5, Nat.testbit n 4, Nat.testbit n 3,
   Nat.testbit n 2, Nat.testbit n 1, Nat.testbit n 0).

Definition alphabet : string :=
  "ABCDEFGHIJKLMNOPQRSTUVWXYZabcdefghijklmnopqrstuvwxyz0123456789+/".

Definition pad : ascii := "="%char.

Definition char_of (s : sextet) : ascii :=
  default pad (String.get (index s) alphabet).

Definition between (lo hi c : ascii) : bool :=
  (nat_of_ascii lo <=? nat_of_ascii c)%nat && (nat_of_ascii c <=? nat_of_ascii hi)%nat.

Definition value_of (c : ascii) : option sextet :=
  let n := nat_of_ascii c in
  if between "A" "Z" c then Some (of_index (n - 65))
  else if between "a" "z" c then Some (of_index (n - 97 + 26))
  else if between "0" "9" c then Some (of_index (n - 48 + 52))
  else if Ascii.eqb c "+" then Some (of_index 62)
  else if Ascii.eqb c "/" then Some (of_index 63)
  else None.

(** Three bytes are twenty-four bits are four sextets. *)
Definition pack3 (a b c : byte) : sextet * sextet * sextet * sextet :=
  let '(a0, (a1, (a2, (a3, (a4, (a5, (a6, a7))))))) := Byte.to_bits a in
  let '(b0, (b1, (b2, (b3, (b4, (b5, (b6, b7))))))) := Byte.to_bits b in
  let '(c0, (c1, (c2, (c3, (c4, (c5, (c6, c7))))))) := Byte.to_bits c in
  ((a7, a6, a5, a4, a3, a2), (a1, a0, b7, b6, b5, b4),
   (b3, b2, b1, b0, c7, c6), (c5, c4, c3, c2, c1, c0)).

Definition unpack3 (s1 s2 s3 s4 : sextet) : byte * byte * byte :=
  let '(a7, a6, a5, a4, a3, a2) := s1 in
  let '(a1, a0, b7, b6, b5, b4) := s2 in
  let '(b3, b2, b1, b0, c7, c6) := s3 in
  let '(c5, c4, c3, c2, c1, c0) := s4 in
  (Byte.of_bits (a0, (a1, (a2, (a3, (a4, (a5, (a6, a7))))))),
   Byte.of_bits (b0, (b1, (b2, (b3, (b4, (b5, (b6, b7))))))),
   Byte.of_bits (c0, (c1, (c2, (c3, (c4, (c5, (c6, c7)))))))).

Definition zero : byte := x00.

(** RFC 4648 section 4, with padding. *)
Fixpoint encode (bs : list byte) : string :=
  match bs with
  | [] => EmptyString
  | [a] =>
      let '(s1, s2, _, _) := pack3 a zero zero in
      String (char_of s1) (String (char_of s2) (String pad (String pad EmptyString)))
  | [a; b] =>
      let '(s1, s2, s3, _) := pack3 a b zero in
      String (char_of s1) (String (char_of s2) (String (char_of s3) (String pad EmptyString)))
  | a :: b :: c :: rest =>
      let '(s1, s2, s3, s4) := pack3 a b c in
      String (char_of s1) (String (char_of s2)
        (String (char_of s3) (String (char_of s4) (encode rest))))
  end.

Definition is_pad (c : ascii) : bool := Ascii.eqb c pad.

Fixpoint decode (s : string) : option (list byte) :=
  match s with
  | EmptyString => Some []
  | String c1 (String c2 (String c3 (String c4 rest))) =>
      match value_of c1, value_of c2 with
      | Some s1, Some s2 =>
          if is_pad c3 then
            if is_pad c4 && String.eqb rest EmptyString then
              let '(a, _, _) := unpack3 s1 s2 (of_index 0) (of_index 0) in Some [a]
            else None
          else
            match value_of c3 with
            | None => None
            | Some s3 =>
                if is_pad c4 then
                  if String.eqb rest EmptyString then
                    let '(a, b, _) := unpack3 s1 s2 s3 (of_index 0) in Some [a; b]
                  else None
                else
                  match value_of c4, decode rest with
                  | Some s4, Some tail =>
                      let '(a, b, c) := unpack3 s1 s2 s3 s4 in Some (a :: b :: c :: tail)
                  | _, _ => None
                  end
            end
      | _, _ => None
      end
  | _ => None
  end.

End Base64.

(** [FileReader.readAsDataURL]: the blob as a [data:] URL, its bytes in
    base64 after the comma. *)
Definition dataURL_prefix (type : string) : string :=
  "data:" +:+ type +:+ ";base64,".

Definition readAsDataURL (b : Blob) : string :=
  dataURL_prefix (blob_type b) +:+ Base64.encode (blob_bytes b).

(** The outcome of the promise [blobToBase64] returns: [reader.onload]
    resolves it with [reader.result], [reader.onerror] rejects it with
    [new Error("Error reading Blob: " + event.target.error)]. *)
Inductive ReadOutcome := ReadOk | ReadError (error : string).

Definition blobToBase64 (blob : Blob) (o : ReadOutcome) : string + string :=
  match o with
  | ReadOk => inl (readAsDataURL blob)
  | ReadError e => inr ("Error reading Blob: " +:+ e)
  end.

(** [base64AudioString.split(',')[1] || base64AudioString], the request
    body of [sendAudioToApi]. *)
Definition base64Data (base64AudioString : string) : string :=
  match JS.split "," base64AudioString !! 1%nat with
  | Some part => if String.eqb part "" then base64AudioString else part
  | None => base64AudioString
  end.

(* ================================================================== *)
(** ** The state the handlers share *)
(* ================================================================== *)

(** The script's module-level variables ([let isRecording], [let
    mediaRecorder], [let audioChunks]).  [mediaRecorder] is a reference into
    the browser's recorder objects, or [None] for [undefined] and [null];
    the script tells the two apart nowhere. *)
Record Vars := {
  isRecording : bool;
  mediaRecorder : option nat;
  audioChunks : list Chunk
}.

(** What the script reads and writes of its six elements: [micButton]
    ([disabled], and whether its class list has ['recording']), [micText]
    and [transcriptOutput] (their [textContent]), [statusMessage]
    ([textContent] and [className]), [responseArea] ([style.display]) and
    [audioPlayer] ([src] and [style.display]). *)
Record Dom := {
  micButton_disabled : bool;
  micButton_recording : bool;
  micText : string;
  statusMessage : string;
  statusMessage_className : string;
  responseArea_display : string;
  transcriptOutput : string;
  audioPlayer_src : string;
  audioPlayer_display : string
}.

(** A media stream is its tracks; [track.stop()] ends a track and the
    microphone is held as long as a track of some stream is live. *)
Inductive Track := Live | Ended.
Definition Stream := list Track.

Definition is_live (t : Track) : bool :=
  match t with Live => true | Ended => false end.

(** [stream.active]. *)
Definition active (st : Stream) : bool := existsb is_live st.

(** [stream.getTracks().forEach(track => track.stop())]. *)
Definition stop_tracks (st : Stream) : Stream := List.map (fun _ => Ended) st.

(** A MediaRecorder object.  Its three handlers close over the [stream] of
    the [startRecording] call that made it, which is the stream it records:
    [rec_stream].  The script never pauses a recorder, so [state] is
    ['inactive'] or ['recording'].  [rec_stopQueued] is the browser's
    pending [stop] event, queued by [stop()] and by a recording error. *)
Inductive RecordingState := Inactive | Recording.

Record Recorder := {
  rec_stream : nat;
  rec_state : RecordingState;
  rec_mimeType : string;
  rec_stopQueued : bool
}.

(** The browser: whether [navigator.mediaDevices.getUserMedia] exists, the
    stream and recorder objects made so far, and the operations the script
    has started and that have not settled: [getUserMedia] promises,
    [FileReader] reads (with the blob being read) and [fetch] requests
    (with the body sent). *)
Record Browser := {
  mediaDevices : bool;
  streams : list Stream;
  recorders : list Recorder;
  pendingAccess : nat;
  pendingReads : list Blob;
  inFlight : list string
}.

Record State := { vars : Vars; dom : Dom; browser : Browser }.

Definition set_isRecording (x : bool) (r : Vars) : Vars :=
  {| isRecording := x; mediaRecorder := mediaRecorder r; audioChunks :=
     audioChunks r |}.
Definition set_mediaRecorder (x : option nat) (r : Vars) : Vars :=
  {| isRecording := isRecording r; mediaRecorder := x; audioChunks :=
     audioChunks r |}.
Definition set_audioChunks (x : list Chunk) (r : Vars) : Vars :=
  {| isRecording := isRecording r; mediaRecorder := mediaRecorder r;
     audioChunks := x |}.

Definition set_micButton_disabled (x : bool) (r : Dom) : Dom :=
  {| micButton_disabled := x; micButton_recording := micButton_recording r;
     micText := micText r; statusMessage := statusMessage r;
     statusMessage_className := statusMessage_className r; responseArea_display
     := responseArea_display r; transcriptOutput := transcriptOutput r;
     audioPlayer_src := audioPlayer_src r; audioPlayer_display :=
     audioPlayer_display r |}.
Definition set_micButton_recording (x : bool) (r : Dom) : Dom :=
  {| micButton_disabled := micButton_disabled r; micButton_recording := x;
     micText := micText r; statusMessage := statusMessage r;
     statusMessage_className := statusMessage_className r; responseArea_display
     := responseArea_display r; transcriptOutput := transcriptOutput r;
     audioPlayer_src := audioPlayer_src r; audioPlayer_display :=
     audioPlayer_display r |}.
Definition set_micText (x : string) (r : Dom) : Dom :=
  {| micButton_disabled := micButton_disabled r; micButton_recording :=
     micButton_recording r; micText := x; statusMessage := statusMessage r;
     statusMessage_className := statusMessage_className r; responseArea_display
     := responseArea_display r; transcriptOutput := transcriptOutput r;
     audioPlayer_src := audioPlayer_src r; audioPlayer_display :=
     audioPlayer_display r |}.
Definition set_statusMessage (x : string) (r : Dom) : Dom :=
  {| micButton_disabled := micButton_disabled r; micButton_recording :=
     micButton_recording r; micText := micText r; statusMessage := x;
     statusMessage_className := statusMessage_className r; responseArea_display
     := responseArea_display r; transcriptOutput := transcriptOutput r;
     audioPlayer_src := audioPlayer_src r; audioPlayer_display :=
     audioPlayer_display r |}.
Definition set_statusMessage_className (x : string) (r : Dom) : Dom :=
  {| micButton_disabled := micButton_disabled r; micButton_recording :=
     micButton_recording r; micText := micText r; statusMessage := statusMessage
     r; statusMessage_className := x; responseArea_display :=
     responseArea_display r; transcriptOutput := transcriptOutput r;
     audioPlayer_src := audioPlayer_src r; audioPlayer_display :=
     audioPlayer_display r |}.
Definition set_responseArea_display (x : string) (r : Dom) : Dom :=
  {| micButton_disabled := micButton_disabled r; micButton_recording :=
     micButton_recording r; micText := micText r; statusMessage := statusMessage
     r; statusMessage_className := statusMessage_className r;
     responseArea_display := x; transcriptOutput := transcriptOutput r;
     audioPlayer_src := audioPlayer_src r; audioPlayer_display :=
     audioPlayer_display r |}.
Definition set_transcriptOutput (x : string) (r : Dom) : Dom :=
  {| micButton_disabled := micButton_disabled r; micButton_recording :=
     micButton_recording r; micText := micText r; statusMessage := statusMessage
     r; statusMessage_className := statusMessage_className r;
     responseArea_display := responseArea_display r; transcriptOutput := x;
     audioPlayer_src := audioPlayer_src r; audioPlayer_display :=
     audioPlayer_display r |}.
Definition set_audioPlayer_src (x : string) (r : Dom) : Dom :=
  {| micButton_disabled := micButton_disabled r; micButton_recording :=
     micButton_recording r; micText := micText r; statusMessage := statusMessage
     r; statusMessage_className := statusMessage_className r;
     responseArea_display := responseArea_display r; transcriptOutput :=
     transcriptOutput r; audioPlayer_src := x; audioPlayer_display :=
     audioPlayer_display r |}.
Definition set_audioPlayer_display (x : string) (r : Dom) : Dom :=
  {| micButton_disabled := micButton_disabled r; micButton_recording :=
     micButton_recording r; micText := micText r; statusMessage := statusMessage
     r; statusMessage_className := statusMessage_className r;
     responseArea_display := responseArea_display r; transcriptOutput :=
     transcriptOutput r; audioPlayer_src := audioPlayer_src r;
     audioPlayer_display := x |}.

Definition set_mediaDevices (x : bool) (r : Browser) : Browser :=
  {| mediaDevices := x; streams := streams r; recorders := recorders r;
     pendingAccess := pendingAccess r; pendingReads := pendingReads r; inFlight
     := inFlight r |}.
Definition set_streams (x : list Stream) (r : Browser) : Browser :=
  {| mediaDevices := mediaDevices r; streams := x; recorders := recorders r;
     pendingAccess := pendingAccess r; pendingReads := pendingReads r; inFlight
     := inFlight r |}.
Definition set_recorders (x : list Recorder) (r : Browser) : Browser :=
  {| mediaDevices := mediaDevices r; streams := streams r; recorders := x;
     pendingAccess := pendingAccess r; pendingReads := pendingReads r; inFlight
     := inFlight r |}.
Definition set_pendingAccess (x : nat) (r : Browser) : Browser :=
  {| mediaDevices := mediaDevices r; streams := streams r; recorders :=
     recorders r; pendingAccess := x; pendingReads := pendingReads r; inFlight :=
     inFlight r |}.
Definition set_pendingReads (x : list Blob) (r : Browser) : Browser :=
  {| mediaDevices := mediaDevices r; streams := streams r; recorders :=
     recorders r; pendingAccess := pendingAccess r; pendingReads := x; inFlight
     := inFlight r |}.
Definition set_inFlight (x : list string) (r : Browser) : Browser :=
  {| mediaDevices := mediaDevices r; streams := streams r; recorders :=
     recorders r; pendingAccess := pendingAccess r; pendingReads := pendingReads
     r; inFlight := x |}.

Definition upd_vars (f : Vars -> Vars) (s : State) : State :=
  {| vars := f (vars s); dom := dom s; browser := browser s |}.
Definition upd_dom (f : Dom -> Dom) (s : State) : State :=
  {| vars := vars s; dom := f (dom s); browser := browser s |}.
Definition upd_browser (f : Browser -> Browser) (s : State) : State :=
  {| vars := vars s; dom := dom s; browser := f (browser s) |}.

(** Statements in sequence, in the order the source has them. *)
Notation "s |> f" := (f s) (at level 45, left associativity, only parsing).

(** How a block of statements ends: normally, or by a thrown error with
    its [message], in the state reached when it was thrown. *)
Inductive Completion :=
| Normal (s : State)
| Throw (message : string) (s : State).

(* ================================================================== *)
(** ** Helper functions of the script *)
(* ================================================================== *)

(** [updateStatus(message, isError = false)]. *)
Definition updateStatus (message : string) (isError : bool) (s : State) : State :=
  s |> upd_dom (set_statusMessage message)
    |> upd_dom (set_statusMessage_className
                  (if isError then "status-message error" else "status-message")).

Definition idle_text : string := "Click me to ask your technological questions".

(** [resetMicButton()]. *)
Definition resetMicButton (s : State) : State :=
  s |> upd_vars (set_isRecording false)
    |> upd_dom (set_micButton_recording false)
    |> upd_dom (set_micText idle_text).

(** [displayResponse(data)].  [data.transcript && data.audioUrl] reads
    [audioUrl] only when [transcript] is truthy; reading a property of
    [null] throws before anything is written.  Assigning to [textContent]
    and to [src] converts the value to a string, which can throw: for the
    second, after the first has been written. *)
Definition displayResponse (data : JS.value) (s : State) : Completion :=
  match JS.get data "transcript" with
  | None => Throw (JS.type_error_message data "transcript") s
  | Some transcript =>
      match (if JS.truthy transcript then JS.get data "audioUrl" else Some transcript) with
      | None => Throw (JS.type_error_message data "audioUrl") s
      | Some cond =>
          if JS.truthy cond then
            match JS.to_string transcript with
            | None => Throw JS.conversion_error s
            | Some text =>
                let s := s |> upd_dom (set_transcriptOutput text) in
                match JS.to_string cond with
                | None => Throw JS.conversion_error s
                | Some url =>
                    Normal (s |> upd_dom (set_audioPlayer_src url)
                              |> upd_dom (set_audioPlayer_display "block")
                              |> upd_dom (set_responseArea_display "block")
                              |> updateStatus "Response loaded. Press play to listen." false)
                end
            end
          else
            Normal (s |> updateStatus "Received an invalid response from the assistant." true
                      |> upd_dom (set_responseArea_display "none"))
      end
  end.

(* ================================================================== *)
(** ** sendAudioToApi *)
(* ================================================================== *)

(** What [response.json()] settles with. *)
Inductive JsonOutcome :=
| Json (v : JS.value)
| JsonError (message : string).

(** What the script reads of a Response.  [status] is the status code (an
    unsigned short on the platform), which a template prints in decimal;
    [response.ok] is the status being in 200..299. *)
Record Response := {
  status : Z;
  statusText : string;
  json : JsonOutcome
}.

Definition ok (r : Response) : bool := (200 <=? status r) && (status r <=? 299).

(** What [fetch] settles with. *)
Inductive FetchOutcome :=
| Responded (response : Response)
| NetworkFailure (message : string).

(** [fetch(API_ENDPOINT, { method: 'POST', body })]: one more request in
    flight. *)
Definition fetch (body : string) (s : State) : State :=
  s |> upd_browser (fun b => set_inFlight (inFlight b ++ [body]) b).

(** [sendAudioToApi] up to its [await fetch(...)]. *)
Definition sendAudioToApi (base64AudioString : string) (s : State) : State :=
  s |> updateStatus "Sending audio to Via..." false
    |> fetch (base64Data base64AudioString).

(** The inner [try] of the [!response.ok] branch: the message that ends up
    in [errorMsg].  A body that is not JSON, and a body that is [null]
    (reading [.error] throws), are both caught by the inner [catch]. *)
Definition errorMsg (response : Response) : JS.value :=
  let errorMsg :=
    JS.Str ("Error: " +:+ pretty (status response) +:+ " " +:+ statusText response) in
  match json response with
  | JsonError _ => errorMsg
  | Json errorData =>
      match JS.get errorData "error", JS.get errorData "message" with
      | Some e, Some m => JS.or e (JS.or m errorMsg)
      | _, _ => errorMsg
      end
  end.

(** The [try] block of [sendAudioToApi] from the point [fetch] settles;
    [new Error(errorMsg)] converts its argument to a string.
    The two awaits ([fetch], then [response.json()]) are one step: the
    script reads and writes nothing between them. *)
Definition sendAudioToApi_try (o : FetchOutcome) (s : State) : Completion :=
  match o with
  | NetworkFailure message => Throw message s
  | Responded response =>
      if negb (ok response) then
        match JS.to_string (errorMsg response) with
        | Some message => Throw message s
        | None => Throw JS.conversion_error s
        end
      else
        match json response with
        | JsonError message => Throw message s
        | Json data =>
            match displayResponse data s with
            | Throw message s' => Throw message s'
            | Normal s' => Normal (updateStatus "Response received." false s')
            end
        end
  end.

(** The whole continuation: [try], then [catch], then [finally]. *)
Definition sendAudioToApi_settled (o : FetchOutcome) (s : State) : State :=
  match sendAudioToApi_try o s with
  | Normal s' => resetMicButton s'
  | Throw message s' =>
      s' |> updateStatus ("Failed to get response: " +:+ message) true
         |> resetMicButton
  end.

(* ================================================================== *)
(** ** startRecording and the recorder's handlers *)
(* ================================================================== *)

(** [mediaRecorder.ondataavailable]. *)
Definition ondataavailable (data : Chunk) (s : State) : State :=
  if (0 <? length data)%nat
  then s |> upd_vars (fun v => set_audioChunks (audioChunks v ++ [data]) v)
  else s.

Definition update_stream (i : nat) (f : Stream -> Stream) (s : State) : State :=
  s |> upd_browser (fun b => set_streams (alter f i (streams b)) b).

Definition update_recorder (i : nat) (f : Recorder -> Recorder) (s : State) : State :=
  s |> upd_browser (fun b => set_recorders (alter f i (recorders b)) b).

(** [blobToBase64(blob)] called: a read is pending. *)
Definition start_read (blob : Blob) (s : State) : State :=
  s |> upd_browser (fun b => set_pendingReads (pendingReads b ++ [blob]) b).

(** [mediaRecorder.onstop] up to [await blobToBase64(audioBlob)]; [stream]
    is the closure's stream.  [mediaRecorder.mimeType] reads the
    module-level variable: when that is [null] the read throws, the async
    handler's promise rejects, and nothing further runs. *)
Definition onstop (stream : nat) (s : State) : State :=
  if (length (audioChunks (vars s)) =? 0)%nat then
    s |> updateStatus "No audio was recorded. Please try again." true
      |> resetMicButton
  else
    match mediaRecorder (vars s) with
    | None => s
    | Some r =>
        let mimeType := default "" (rec_mimeType <$> recorders (browser s) !! r) in
        let audioBlob :=
          new_Blob (audioChunks (vars s))
                   (if String.eqb mimeType "" then "audio/webm" else mimeType) in
        s |> update_stream stream stop_tracks
          |> upd_vars (set_mediaRecorder None)
          |> updateStatus "Processing audio..." false
          |> start_read audioBlob
    end.

(** [onstop] from the point [blobToBase64] settles. *)
Definition onstop_read (audioBlob : Blob) (o : ReadOutcome) (s : State) : State :=
  match blobToBase64 audioBlob o with
  | inl base64Audio => sendAudioToApi base64Audio s
  | inr _ =>
      s |> updateStatus "Error processing audio." true
        |> resetMicButton
  end.

(** [mediaRecorder.onerror]; [name] is [event.error.name]. *)
Definition onerror (stream : nat) (name : string) (s : State) : State :=
  let s := s |> updateStatus ("Recording error: " +:+ name) true
             |> upd_vars (set_isRecording false)
             |> resetMicButton in
  let s := if default false (active <$> streams (browser s) !! stream)
           then update_stream stream stop_tracks s
           else s in
  s |> upd_vars (set_mediaRecorder None).

(** What the browser decides when access is granted: how many tracks the
    stream has, whether [new MediaRecorder(stream, { mimeType:
    'audio/webm;codecs=opus' })] succeeds, what [new MediaRecorder(stream)]
    does (its [mimeType], or the message of what it throws), and whether
    [start()] throws. *)
Record Grant := {
  grant_tracks : nat;
  opus_supported : bool;
  default_recorder : string + string;
  start_error : option string
}.

(** [startRecording] up to [await getUserMedia({ audio: true })]. *)
Definition startRecording (s : State) : State :=
  if negb (mediaDevices (browser s)) then
    s |> updateStatus "Media Devices API not supported." true
  else
    s |> updateStatus "Requesting microphone access..." false
      |> upd_browser (fun b => set_pendingAccess (S (pendingAccess b)) b).

(** The outer [catch] of [startRecording]. *)
Definition startRecording_catch (message : string) (s : State) : State :=
  s |> updateStatus
         ("Could not access microphone: " +:+ message +:+ ". Please grant permission.") true
    |> resetMicButton.

(** The statements between [getUserMedia] resolving and the recorder being
    built: mark the recording, clear the previous answer, reset the chunks. *)
Definition startRecording_prepare (s : State) : State :=
  s |> upd_vars (set_isRecording true)
    |> upd_dom (set_micButton_recording true)
    |> upd_dom (set_micText "Recording... Click to stop")
    |> updateStatus "Recording started..." false
    |> upd_dom (set_responseArea_display "none")
    |> upd_dom (set_transcriptOutput "")
    |> upd_dom (set_audioPlayer_src "")
    |> upd_dom (set_audioPlayer_display "none")
    |> upd_vars (set_audioChunks []).

(** The inner [try]/[catch] that builds the recorder: its [mimeType], or
    the message of the error the fallback constructor throws. *)
Definition new_MediaRecorder (g : Grant) : string + string :=
  if opus_supported g then inl "audio/webm;codecs=opus" else default_recorder g.

(** From the recorder being built to [mediaRecorder.start()]. *)
Definition startRecording_record (g : Grant) (stream : nat) (s : State) : State :=
  match new_MediaRecorder g with
  | inr message => startRecording_catch message s
  | inl mimeType =>
      let r := length (recorders (browser s)) in
      let s := s |> upd_browser (fun b =>
                      set_recorders (recorders b ++
                        [{| rec_stream := stream; rec_state := Inactive;
                            rec_mimeType := mimeType; rec_stopQueued := false |}]) b)
                 |> upd_vars (set_mediaRecorder (Some r)) in
      match start_error g with
      | Some message => startRecording_catch message s
      | None =>
          s |> update_recorder r (fun rec =>
                 {| rec_stream := rec_stream rec; rec_state := Recording;
                    rec_mimeType := rec_mimeType rec; rec_stopQueued := rec_stopQueued rec |})
      end
  end.

(** [startRecording] from the point [getUserMedia] resolves with a new
    stream, all of whose tracks are live. *)
Definition startRecording_granted (g : Grant) (s : State) : State :=
  let stream := length (streams (browser s)) in
  s |> upd_browser (fun b => set_streams (streams b ++ [repeat Live (grant_tracks g)]) b)
    |> startRecording_prepare
    |> startRecording_record g stream.

(** [startRecording] from the point [getUserMedia] rejects. *)
Definition startRecording_denied (message : string) (s : State) : State :=
  startRecording_catch message s.

(** [recorder.stop()]: the recorder goes inactive and its [stop] event is
    queued. *)
Definition MediaRecorder_stop (rec : Recorder) : Recorder :=
  {| rec_stream := rec_stream rec; rec_state := Inactive;
     rec_mimeType := rec_mimeType rec; rec_stopQueued := true |}.

Definition is_recording (rec : Recorder) : bool :=
  match rec_state rec with Recording => true | Inactive => false end.

(** [stopRecording()]. *)
Definition stopRecording (s : State) : State :=
  match mediaRecorder (vars s) with
  | Some r =>
      if default false (is_recording <$> recorders (browser s) !! r) then
        s |> update_recorder r MediaRecorder_stop
          |> updateStatus "Stopping recording..." false
          |> upd_vars (set_isRecording false)
          |> upd_dom (set_micButton_recording false)
          |> upd_dom (set_micText "Processing...")
      else resetMicButton s
  | None => resetMicButton s
  end.

(** The click listener of [micButton]. *)
Definition micButton_click (s : State) : State :=
  if negb (isRecording (vars s)) then startRecording s else stopRecording s.

(* ================================================================== *)
(** ** The event loop *)
(* ================================================================== *)

(** What can happen next: the user clicks [micButton], or the browser
    settles one of the operations in progress or fires a recorder event.
    Pending reads and requests are named by their position in the list. *)
Inductive Event :=
| Click
| AccessGranted (g : Grant)
| AccessDenied (message : string)
| DataAvailable (r : nat) (data : Chunk)
| RecorderStop (r : nat)
| RecorderError (r : nat) (name : string)
| ReadSettled (i : nat) (o : ReadOutcome)
| FetchSettled (i : nat) (o : FetchOutcome).

(** A recording error makes the recorder inactive and queues its [stop]
    event, as [stop()] does. *)
Definition MediaRecorder_fail (rec : Recorder) : Recorder := MediaRecorder_stop rec.

Definition stop_delivered (rec : Recorder) : Recorder :=
  {| rec_stream := rec_stream rec; rec_state := rec_state rec;
     rec_mimeType := rec_mimeType rec; rec_stopQueued := false |}.

(** One turn of the event loop.  An event the browser cannot deliver in
    the state (a click on a disabled button, a settlement of nothing
    pending, an event of a recorder that is not running) changes nothing. *)
Definition step (e : Event) (s : State) : State :=
  match e with
  | Click =>
      if micButton_disabled (dom s) then s else micButton_click s
  | AccessGranted g =>
      match pendingAccess (browser s) with
      | O => s
      | S n => s |> upd_browser (set_pendingAccess n) |> startRecording_granted g
      end
  | AccessDenied message =>
      match pendingAccess (browser s) with
      | O => s
      | S n => s |> upd_browser (set_pendingAccess n) |> startRecording_denied message
      end
  | DataAvailable r data =>
      match recorders (browser s) !! r with
      | Some rec =>
          if is_recording rec || rec_stopQueued rec then ondataavailable data s else s
      | None => s
      end
  | RecorderStop r =>
      match recorders (browser s) !! r with
      | Some rec =>
          if rec_stopQueued rec
          then s |> update_recorder r stop_delivered |> onstop (rec_stream rec)
          else s
      | None => s
      end
  | RecorderError r name =>
      match recorders (browser s) !! r with
      | Some rec =>
          if is_recording rec
          then s |> update_recorder r MediaRecorder_fail |> onerror (rec_stream rec) name
          else s
      | None => s
      end
  | ReadSettled i o =>
      match pendingReads (browser s) !! i with
      | Some blob =>
          s |> upd_browser (fun b => set_pendingReads (delete i (pendingReads b)) b)
            |> onstop_read blob o
      | None => s
      end
  | FetchSettled i o =>
      match inFlight (browser s) !! i with
      | Some _ =>
          s |> upd_browser (fun b => set_inFlight (delete i (inFlight b)) b)
            |> sendAudioToApi_settled o
      | None => s
      end
  end.

(** The events of a list, first to last. *)
Definition run (es : list Event) (s : State) : State :=
  foldl (fun s e => step e s) s es.

(** The page before the script runs.  [index.html] is not among the
    sources, so the elements start with empty text and no inline style. *)
Definition document (supported : bool) : State :=
  {| vars := {| isRecording := false; mediaRecorder := None; audioChunks := [] |};
     dom := {| micButton_disabled := false; micButton_recording := false;
               micText := ""; statusMessage := ""; statusMessage_className := "";
               responseArea_display := ""; transcriptOutput := "";
               audioPlayer_src := ""; audioPlayer_display := "" |};
     browser := {| mediaDevices := supported; streams := []; recorders := [];
                   pendingAccess := 0; pendingReads := []; inFlight := [] |} |}.

(** The script's top level: the browser-support check, then the initial
    status. *)
Definition script (s : State) : State :=
  let s := if negb (mediaDevices (browser s))
           then s |> updateStatus "Media Devices API not supported by your browser." true
                  |> upd_dom (set_micButton_disabled true)
           else s in
  s |> updateStatus "Click the microphone button to start." false.

Definition loaded : State := script (document true).

(* ================================================================== *)
(** ** The states of the interaction *)
(* ================================================================== *)

(** Idle as the script has it: not recording, the control reset. *)
Definition Idle (s : State) : Prop :=
  isRecording (vars s) = false /\
  micButton_recording (dom s) = false /\
  micText (dom s) = idle_text.

(** Requesting: device access has been asked for and not yet settled. *)
Definition Requesting (s : State) : Prop := (0 < pendingAccess (browser s))%nat.

(** Processing: a send is in flight. *)
Definition Processing (s : State) : Prop := inFlight (browser s) <> [].

(** The visible status is an error. *)
Definition status_is_error (s : State) : bool :=
  String.eqb (statusMessage_className (dom s)) "status-message error".

(** Some track of some stream is live: the microphone is held. *)
Definition device_held (s : State) : bool :=
  existsb active (streams (browser s)).

(** The stream [i] of a state, if it exists, is no longer active. *)
Definition released (i : nat) (s : State) : Prop :=
  forall st, streams (browser s) !! i = Some st -> active st = false.

(** What the [else] branch of [displayResponse] leaves. *)
Definition rejected (s : State) : State :=
  s |> updateStatus "Received an invalid response from the assistant." true
    |> upd_dom (set_responseArea_display "none").

(** A sample grant: one audio track, the preferred format accepted. *)
Definition granted : Grant :=
  {| grant_tracks := 1; opus_supported := true;
     default_recorder := inl "audio/webm;codecs=opus"; start_error := None |}.

(** The ways a cycle ends (section 7 of the specification's taxonomy, and
    the successful render). *)
Inductive Outcome :=
| Rendered
| PermissionDenied
| RecordingFailed
| NoAudioCaptured
| EncodingFailed
| NetworkError
| RemoteError
| InvalidResponseShape.

(** [data.transcript && data.audioUrl] is truthy. *)
Definition renderable (data : JS.value) : bool :=
  match JS.get data "transcript", JS.get data "audioUrl" with
  | Some transcript, Some audioUrl => JS.truthy transcript && JS.truthy audioUrl
  | _, _ => false
  end.

(** [ends o s s']: the handler run that ends a cycle with outcome [o]
    takes [s] to [s']. *)
Inductive ends : Outcome -> State -> State -> Prop :=
| ends_Rendered response data s :
    ok response = true -> json response = Json data -> renderable data = true ->
    ends Rendered s (sendAudioToApi_settled (Responded response) s)
| ends_InvalidResponseShape response s :
    ok response = true ->
    (forall data, json response = Json data -> renderable data = false) ->
    ends InvalidResponseShape s (sendAudioToApi_settled (Responded response) s)
| ends_RemoteError response s :
    ok response = false ->
    ends RemoteError s (sendAudioToApi_settled (Responded response) s)
| ends_NetworkError message s :
    ends NetworkError s (sendAudioToApi_settled (NetworkFailure message) s)
| ends_EncodingFailed blob error s :
    ends EncodingFailed s (onstop_read blob (ReadError error) s)
| ends_NoAudioCaptured stream s :
    audioChunks (vars s) = [] ->
    ends NoAudioCaptured s (onstop stream s)
| ends_RecordingFailed stream name s :
    ends RecordingFailed s (onerror stream name s)
| ends_PermissionDenied message s :
    ends PermissionDenied s (startRecording_denied message s).

(* ================================================================== *)
(** ** Sample runs *)
(* ================================================================== *)

Module Sample.

Definition hi : Chunk := ["h"%byte; "i"%byte; "!"%byte].

(** One cycle up to the send: press, grant, one chunk, press, the
    recorder's stop event, the read completes. *)
Definition cycle (r : nat) : list Event :=
  [Click; AccessGranted granted; DataAvailable r hi; Click; RecorderStop r;
   ReadSettled 0 ReadOk].

(** A send is in flight. *)
Definition sending : State := run (cycle 0) loaded.

(** A press during the send, and a second cycle up to its own send. *)
Definition second_cycle : State := run (cycle 1) sending.

(** Device access has been asked for. *)
Definition asking : State := run [Click] loaded.

(** A session the user has stopped before any data arrived, and the
    same once the recorder's stop event has been delivered. *)
Definition stopping : State := run [Click; AccessGranted granted; Click] loaded.
Definition silent : State := step (RecorderStop 0) stopping.

Definition upstream_failure : Response :=
  {| status := 500; statusText := "Internal Server Error";
     json := Json (JS.Obj [("error", JS.Str "upstream failure")]) |}.

Definition empty_error : Response :=
  {| status := 500; statusText := "Internal Server Error";
     json := Json (JS.Obj [("error", JS.Str "")]) |}.

(** A success response without [audioUrl]. *)
Definition no_audioUrl : Response :=
  {| status := 200; statusText := "OK";
     json := Json (JS.Obj [("transcript", JS.Str "Turn on Wi-Fi by...")]) |}.

Definition answer : Response :=
  {| status := 200; statusText := "OK";
     json := Json (JS.Obj [("transcript", JS.Str "Turn on Wi-Fi by...");
                           ("audioUrl", JS.Str "https://cdn.example/resp1.mp3")]) |}.

End Sample.

(* ================================================================== *)
(** ** Notions for the properties of whole runs *)
(* ================================================================== *)

(** The chunks [ondataavailable] keeps of a series of [dataavailable]
    events: those of positive size, in order. *)
Definition kept (ds : list Chunk) : list Chunk :=
  List.filter (fun d => (0 <? length d)%nat) ds.

(** No chunk held in [audioChunks] is empty. *)
Definition chunks_nonempty (s : State) : Prop :=
  Forall (fun c : Chunk => c <> []) (audioChunks (vars s)).

(** The event is a [FileReader] read that completed. *)
Definition completes_read (e : Event) : bool :=
  match e with
  | ReadSettled _ ReadOk => true
  | _ => false
  end.

(** The event is [getUserMedia] resolving. *)
Definition grants_access (e : Event) : bool :=
  match e with
  | AccessGranted _ => true
  | _ => false
  end.

(** Stream [i] exists and none of its tracks is live. *)
Definition ended (i : nat) (s : State) : Prop :=
  exists st, streams (browser s) !! i = Some st /\ active st = false.

(** A second cycle started while the first recorder's stop event was
    still queued: the first [onstop] then clears [mediaRecorder] while the
    second recorder is recording and [isRecording] is true. *)
Definition overlapped : State :=
  run [Click; AccessGranted granted; Click; Click; AccessGranted granted;
       DataAvailable 0 ["h"%byte]; RecorderStop 0] loaded.

(** One cycle up to the stop press, with one chunk kept. *)
Definition heard : State :=
  run [Click; AccessGranted granted; DataAvailable 0 Sample.hi; Click] loaded.

(** One cycle up to the point the blob is being read. *)
Definition reading : State :=
  run [Click; AccessGranted granted; DataAvailable 0 Sample.hi; Click; RecorderStop 0] loaded.

(** The answer as the page shows it: transcript, audio reference and the
    two [display] styles. *)
Definition answer_shown (s : State) : string * string * string * string :=
  (transcriptOutput (dom s), audioPlayer_src (dom s),
   audioPlayer_display (dom s), responseArea_display (dom s)).

(* ================================================================== *)
(** ** Base64 and data URLs *)
(* ================================================================== *)

Section Base64_facts.
Import Base64.

Lemma value_of_char_of (s : sextet) : value_of (char_of s) = Some s.
Proof. destruct s as [[[[[[] []] []] []] []] []]; reflexivity. Qed.

Lemma char_of_not_pad (s : sextet) : is_pad (char_of s) = false.
Proof. destruct s as [[[[[[] []] []] []] []] []]; reflexivity. Qed.

Lemma char_of_not_comma (s : sextet) : Ascii.eqb (char_of s) "," = false.
Proof. destruct s as [[[[[[] []] []] []] []] []]; reflexivity. Qed.

Lemma unpack3_pack3 (a b c : byte) :
  let '(s1, s2, s3, s4) := pack3 a b c in unpack3 s1 s2 s3 s4 = (a, b, c).
Proof.
  unfold pack3, unpack3.
  pose proof (Byte.of_bits_to_bits a) as Ha.
  pose proof (Byte.of_bits_to_bits b) as Hb.
  pose proof (Byte.of_bits_to_bits c) as Hc.
  destruct (Byte.to_bits a) as (a0 & a1 & a2 & a3 & a4 & a5 & a6 & a7).
  destruct (Byte.to_bits b) as (b0 & b1 & b2 & b3 & b4 & b5 & b6 & b7).
  destruct (Byte.to_bits c) as (c0 & c1 & c2 & c3 & c4 & c5 & c6 & c7).
  by rewrite Ha, Hb, Hc.
Qed.

Lemma list_ind3 {A} (P : list A -> Prop) :
  P [] -> (forall a, P [a]) -> (forall a b, P [a; b]) ->
  (forall a b c l, P l -> P (a :: b :: c :: l)) ->
  forall l, P l.
Proof.
  intros H0 H1 H2 H3. fix IH 1.
  intros [|a [|b [|c l]]]; [apply H0|apply H1|apply H2|apply H3, IH].
Qed.

Ltac decode_step :=
  cbn [decode];
  rewrite ?value_of_char_of, ?char_of_not_pad; cbn [is_pad andb];
  rewrite ?Ascii.eqb_refl; cbn [andb String.eqb].

(** The first byte depends on the first two sextets only, the second on
    the first three. *)
Lemma unpack3_first s1 s2 s3 s4 t3 t4 a b c :
  unpack3 s1 s2 s3 s4 = (a, b, c) ->
  exists b' c', unpack3 s1 s2 t3 t4 = (a, b', c').
Proof.
  destruct s1 as [[[[[? ?] ?] ?] ?] ?], s2 as [[[[[? ?] ?] ?] ?] ?],
    s3 as [[[[[? ?] ?] ?] ?] ?], s4 as [[[[[? ?] ?] ?] ?] ?],
    t3 as [[[[[? ?] ?] ?] ?] ?], t4 as [[[[[? ?] ?] ?] ?] ?].
  unfold unpack3. intros [= <- _ _]. eauto.
Qed.

Lemma unpack3_second s1 s2 s3 s4 t4 a b c :
  unpack3 s1 s2 s3 s4 = (a, b, c) ->
  exists c', unpack3 s1 s2 s3 t4 = (a, b, c').
Proof.
  destruct s1 as [[[[[? ?] ?] ?] ?] ?], s2 as [[[[[? ?] ?] ?] ?] ?],
    s3 as [[[[[? ?] ?] ?] ?] ?], s4 as [[[[[? ?] ?] ?] ?] ?],
    t4 as [[[[[? ?] ?] ?] ?] ?].
  unfold unpack3. intros [= <- <- _]. eauto.
Qed.

(** Decoding what [encode] wrote gives the bytes back. *)
Lemma decode_encode (bs : list byte) : decode (encode bs) = Some bs.
Proof.
  induction bs as [|a|a b|a b c rest IH] using list_ind3.
  - reflexivity.
  - cbn [encode]. pose proof (unpack3_pack3 a zero zero) as H.
    destruct (pack3 a zero zero) as [[[s1 s2] s3] s4]. decode_step.
    by destruct (unpack3_first _ _ _ _ (of_index 0) (of_index 0) _ _ _ H)
      as (b' & c' & ->).
  - cbn [encode]. pose proof (unpack3_pack3 a b zero) as H.
    destruct (pack3 a b zero) as [[[s1 s2] s3] s4]. decode_step.
    by destruct (unpack3_second _ _ _ _ (of_index 0) _ _ _ H) as (c' & ->).
  - cbn [encode]. pose proof (unpack3_pack3 a b c) as H.
    destruct (pack3 a b c) as [[[s1 s2] s3] s4]. decode_step.
    fold decode. rewrite IH, H. reflexivity.
Qed.

(** The alphabet has no comma, so neither has an encoding. *)
Lemma split_encode (bs : list byte) : JS.split "," (encode bs) = [encode bs].
Proof.
  induction bs as [|a|a b|a b c rest IH] using list_ind3.
  - reflexivity.
  - cbn [encode]. destruct (pack3 a zero zero) as [[[s1 s2] s3] s4].
    cbn [JS.split]. by rewrite !char_of_not_comma.
  - cbn [encode]. destruct (pack3 a b zero) as [[[s1 s2] s3] s4].
    cbn [JS.split]. by rewrite !char_of_not_comma.
  - cbn [encode]. destruct (pack3 a b c) as [[[s1 s2] s3] s4].
    cbn [JS.split]. by rewrite !char_of_not_comma, IH.
Qed.

End Base64_facts.


(* ================================================================== *)
(** ** The control and the states it is pressed in *)
(* ================================================================== *)

Section Press.

Lemma sending_is_Processing : Processing Sample.sending.
Proof. unfold Processing. vm_compute. discriminate. Qed.

Lemma asking_is_Requesting : Requesting Sample.asking.
Proof. unfold Requesting. vm_compute. lia. Qed.

(** The listener looks at [isRecording] and at nothing else. *)
Lemma micButton_click_not_recording (s : State) :
  isRecording (vars s) = false -> micButton_click s = startRecording s.
Proof. unfold micButton_click. by intros ->. Qed.

Lemma micButton_click_recording (s : State) :
  isRecording (vars s) = true -> micButton_click s = stopRecording s.
Proof. unfold micButton_click. by intros ->. Qed.

End Press.

(** C1, as the specification has it, fails.  A press while a send is in
    flight is not ignored: the state changes (the status is replaced and
    device access is asked for again), and carried through a second cycle
    it puts a second send in flight beside the first.  A press while device
    access is pending asks for access a second time. *)
Lemma C1_press_mid_cycle_not_ignored :
  ~ (forall s : State, Processing s \/ Requesting s -> step Click s = s) /\
  (Processing Sample.sending /\
   Requesting (step Click Sample.sending) /\
   length (inFlight (browser Sample.second_cycle)) = 2%nat) /\
  (Requesting Sample.asking /\
   pendingAccess (browser (step Click Sample.asking)) = 2%nat).
Proof.
  split; [|split].
  - intros H. specialize (H Sample.sending (or_introl sending_is_Processing)).
    apply (f_equal (fun s => pendingAccess (browser s))) in H.
    vm_compute in H. discriminate.
  - split; [apply sending_is_Processing|]. split.
    + unfold Requesting. vm_compute. lia.
    + vm_compute. reflexivity.
  - split; [apply asking_is_Requesting|]. vm_compute. reflexivity.
Qed.

(** C1, amended.  The press is dispatched on [isRecording] alone.  On an
    enabled control with the media API present, a press while
    [isRecording] is false runs [startRecording]: the status becomes the
    request message, one more device-access request is pending, and the
    press itself sends nothing and leaves [isRecording] as it was. *)
Theorem C1_press_while_not_recording (s : State) :
  micButton_disabled (dom s) = false ->
  mediaDevices (browser s) = true ->
  isRecording (vars s) = false ->
  step Click s = startRecording s /\
  statusMessage (dom (step Click s)) = "Requesting microphone access..." /\
  pendingAccess (browser (step Click s)) = S (pendingAccess (browser s)) /\
  inFlight (browser (step Click s)) = inFlight (browser s) /\
  isRecording (vars (step Click s)) = false.
Proof.
  intros Hen Hmd Hrec. cbn [step]. rewrite Hen.
  rewrite (micButton_click_not_recording s Hrec).
  unfold startRecording. rewrite Hmd. cbn. by rewrite Hrec.
Qed.

Lemma C1_press_while_not_recording_witness :
  Processing Sample.sending /\
  statusMessage (dom (step Click Sample.sending)) = "Requesting microphone access...".
Proof.
  split; [apply sending_is_Processing|].
  apply (C1_press_while_not_recording Sample.sending); vm_compute; reflexivity.
Defined.

(* ================================================================== *)
(** ** Releasing the microphone *)
(* ================================================================== *)

Section Release.

Lemma active_stop_tracks (st : Stream) : active (stop_tracks st) = false.
Proof. unfold active, stop_tracks. by induction st. Qed.

Lemma update_stream_released (i : nat) (s : State) :
  released i (update_stream i stop_tracks s).
Proof.
  intros st. cbn. rewrite list_lookup_alter_eq.
  destruct (streams (browser s) !! i); cbn; [|done].
  intros [= <-]. apply active_stop_tracks.
Qed.

(** A stop with chunks, whatever the encoding does afterwards, has
    released the closure's stream before the read is started. *)
Lemma onstop_releases (stream r : nat) (s : State) :
  audioChunks (vars s) <> [] ->
  mediaRecorder (vars s) = Some r ->
  released stream (onstop stream s).
Proof.
  intros Hne Hr. unfold onstop. rewrite Hr.
  destruct (audioChunks (vars s)) as [|c cs] eqn:Hc; [done|]. cbn [length Nat.eqb].
  intros st. cbn. rewrite list_lookup_alter_eq.
  destruct (streams (browser s) !! stream); cbn; [|done].
  intros [= <-]. apply active_stop_tracks.
Qed.

(** A recording error releases the closure's stream. *)
Lemma onerror_releases (stream : nat) (name : string) (s : State) :
  released stream (onerror stream name s).
Proof.
  intros st. unfold onerror. cbn.
  destruct (streams (browser s) !! stream) as [st0|] eqn:Hst; cbn.
  - destruct (active st0) eqn:Hact; cbn.
    + rewrite list_lookup_alter_eq, Hst. intros [= <-]. apply active_stop_tracks.
    + rewrite Hst. by intros [= <-].
  - by rewrite Hst.
Qed.

(** A stop with no chunks returns before the tracks are stopped: the
    streams are what they were. *)
Lemma onstop_empty_keeps_streams (stream : nat) (s : State) :
  audioChunks (vars s) = [] ->
  streams (browser (onstop stream s)) = streams (browser s).
Proof. intros H. unfold onstop. by rewrite H. Qed.

End Release.

(** C2 fails on the code at a session stopped before any data arrived:
    [onstop] reports that no audio was recorded, resets the control and
    returns before the statement that stops the stream's tracks.  The
    machine is Idle and the microphone is still held. *)
Theorem C2_zero_chunks_leaves_microphone_held :
  Idle Sample.silent /\
  statusMessage (dom Sample.silent) = "No audio was recorded. Please try again." /\
  streams (browser Sample.silent) = [[Live]] /\
  device_held Sample.silent = true.
Proof. repeat split; vm_compute; reflexivity. Qed.

(* ================================================================== *)
(** ** The status a cycle ends with *)
(* ================================================================== *)

Section Status.

Lemma updateStatus_message (m : string) (e : bool) (s : State) :
  statusMessage (dom (updateStatus m e s)) = m.
Proof. reflexivity. Qed.

Lemma updateStatus_is_error (m : string) (e : bool) (s : State) :
  status_is_error (updateStatus m e s) = e.
Proof. by destruct e. Qed.

Lemma resetMicButton_Idle (s : State) : Idle (resetMicButton s).
Proof. by repeat split. Qed.

Lemma resetMicButton_status (s : State) :
  statusMessage (dom (resetMicButton s)) = statusMessage (dom s) /\
  status_is_error (resetMicButton s) = status_is_error s.
Proof. by split. Qed.

(** Whatever [sendAudioToApi] catches ends as an error status carrying
    the message. *)
Lemma sendAudioToApi_catch (o : FetchOutcome) (s s' : State) (m : string) :
  sendAudioToApi_try o s = Throw m s' ->
  statusMessage (dom (sendAudioToApi_settled o s)) = "Failed to get response: " +:+ m /\
  status_is_error (sendAudioToApi_settled o s) = true.
Proof. unfold sendAudioToApi_settled. by intros ->. Qed.

(** Whenever the [try] block runs to its end, its last statement has
    written the status: whatever [displayResponse] reported is gone. *)
Lemma sendAudioToApi_normal_status (o : FetchOutcome) (s s' : State) :
  sendAudioToApi_try o s = Normal s' ->
  statusMessage (dom (sendAudioToApi_settled o s)) = "Response received." /\
  status_is_error (sendAudioToApi_settled o s) = false.
Proof.
  unfold sendAudioToApi_settled. intros H. rewrite H.
  destruct o as [response|m]; [|done]. cbn in H.
  destruct (negb (ok response)); [by destruct (JS.to_string (errorMsg response))|].
  destruct (json response) as [data|m]; [|done].
  destruct (displayResponse data s); [|done].
  by injection H as <-.
Qed.

End Status.

(** C3 fails on the code at a success response without [audioUrl]:
    [displayResponse] sets the invalid-response error, and the next
    statement of [sendAudioToApi] replaces it with a status that is not an
    error. *)
Theorem C3_invalid_shape_error_overwritten :
  let s := step (FetchSettled 0 (Responded Sample.no_audioUrl)) Sample.sending in
  renderable (JS.Obj [("transcript", JS.Str "Turn on Wi-Fi by...")]) = false /\
  (exists s', displayResponse (JS.Obj [("transcript", JS.Str "Turn on Wi-Fi by...")])
                Sample.sending = Normal s' /\
              statusMessage (dom s') = "Received an invalid response from the assistant." /\
              status_is_error s' = true) /\
  statusMessage (dom s) = "Response received." /\
  status_is_error s = false.
Proof.
  cbv zeta. split; [reflexivity|]. split; [|split; vm_compute; reflexivity].
  eexists. split; [reflexivity|]. split; vm_compute; reflexivity.
Qed.

(* ================================================================== *)
(** ** Non-success responses *)
(* ================================================================== *)

Section Remote.

(** The [error] field, when truthy, is what [errorMsg] ends up holding. *)
Lemma errorMsg_error_field (response : Response) fields (e : JS.value) :
  json response = Json (JS.Obj fields) ->
  JS.lookup_field "error" fields = Some e ->
  JS.truthy e = true ->
  errorMsg response = e.
Proof.
  intros Hj He Ht. unfold errorMsg. rewrite Hj. cbn [JS.get].
  rewrite He. cbn [default id]. unfold JS.or at 1. by rewrite Ht.
Qed.

Lemma sendAudioToApi_settled_Idle (o : FetchOutcome) (s : State) :
  Idle (sendAudioToApi_settled o s).
Proof.
  unfold sendAudioToApi_settled.
  destruct (sendAudioToApi_try o s); apply resetMicButton_Idle.
Qed.

End Remote.

(** C4, as the specification has it, fails.  At HTTP 500 with body
    [{"error":"upstream failure"}] the status the user sees is the error
    text behind a fixed prefix, not the error text alone; and with an
    [error] field that is the empty string it is the generic status-code
    message. *)
Lemma C4_reported_message_is_prefixed :
  let s := step (FetchSettled 0 (Responded Sample.upstream_failure)) Sample.sending in
  let s0 := step (FetchSettled 0 (Responded Sample.empty_error)) Sample.sending in
  statusMessage (dom s) = "Failed to get response: upstream failure" /\
  statusMessage (dom s) <> "upstream failure" /\
  statusMessage (dom s0) = "Failed to get response: Error: 500 Internal Server Error".
Proof. cbv zeta. split; [|split]; [vm_compute; reflexivity|vm_compute; discriminate|vm_compute; reflexivity]. Qed.

(** C4, amended.  For a non-success response whose body is an object with
    a non-empty string as its [error] field, the error thrown carries
    exactly that text, the status shown is ["Failed to get response: "]
    followed by that text, with error severity, and the machine is back
    in Idle. *)
Theorem C4_remote_error_reported (s : State) (response : Response) fields (msg : string) :
  ok response = false ->
  json response = Json (JS.Obj fields) ->
  JS.lookup_field "error" fields = Some (JS.Str msg) ->
  msg <> "" ->
  let s' := sendAudioToApi_settled (Responded response) s in
  sendAudioToApi_try (Responded response) s = Throw msg s /\
  statusMessage (dom s') = "Failed to get response: " +:+ msg /\
  status_is_error s' = true /\
  Idle s'.
Proof.
  intros Hok Hj He Hne s'.
  assert (JS.truthy (JS.Str msg) = true) as Ht.
  { cbn. by destruct (String.eqb_spec msg ""). }
  assert (sendAudioToApi_try (Responded response) s = Throw msg s) as Htry.
  { cbn [sendAudioToApi_try]. rewrite Hok. cbn [negb].
    by rewrite (errorMsg_error_field response fields (JS.Str msg) Hj He Ht). }
  split; [exact Htry|].
  destruct (sendAudioToApi_catch _ _ _ _ Htry) as [Hm Herr].
  split; [exact Hm|]. split; [exact Herr|]. apply sendAudioToApi_settled_Idle.
Qed.

Lemma C4_remote_error_reported_witness :
  statusMessage (dom (sendAudioToApi_settled (Responded Sample.upstream_failure) Sample.sending))
  = "Failed to get response: upstream failure".
Proof.
  apply (C4_remote_error_reported Sample.sending Sample.upstream_failure
           [("error", JS.Str "upstream failure")] "upstream failure");
    [reflexivity|reflexivity|reflexivity|discriminate].
Defined.

(* ================================================================== *)
(** ** Rendering the answer *)
(* ================================================================== *)

Section Render.

Lemma displayResponse_not_renderable (data : JS.value) (s s' : State) :
  renderable data = false ->
  displayResponse data s = Normal s' ->
  s' = rejected s.
Proof.
  unfold renderable, displayResponse.
  destruct (JS.get data "transcript") as [t|]; [|done].
  destruct (JS.truthy t) eqn:Ht.
  - destruct (JS.get data "audioUrl") as [a|]; [|done]. cbn [andb].
    intros ->. by intros [= <-].
  - intros _. rewrite Ht. by intros [= <-].
Qed.

(** A value that is not [null] and not renderable is rejected, without a
    throw. *)
Lemma displayResponse_rejects (data : JS.value) (s : State) :
  JS.get data "transcript" <> None ->
  renderable data = false ->
  displayResponse data s = Normal (rejected s).
Proof.
  unfold renderable, displayResponse.
  destruct (JS.get data "transcript") as [t|] eqn:Hg; [intros _|done].
  assert (exists a, JS.get data "audioUrl" = Some a) as [a ->].
  { destruct data; try done; by eexists. }
  destruct (JS.truthy t) eqn:Ht.
  - cbn [andb]. by intros ->.
  - intros _. by rewrite Ht.
Qed.

(** An object is never [null]: [displayResponse] does not throw on it. *)
Lemma displayResponse_object fields (s : State) :
  renderable (JS.Obj fields) = false ->
  displayResponse (JS.Obj fields) s = Normal (rejected s).
Proof. intros H. by apply displayResponse_rejects. Qed.

Lemma absent_not_renderable fields :
  JS.lookup_field "transcript" fields = None \/
  JS.lookup_field "audioUrl" fields = None ->
  renderable (JS.Obj fields) = false.
Proof.
  unfold renderable. cbn [JS.get]. intros [-> | ->]; cbn [default JS.truthy].
  - done.
  - apply andb_false_r.
Qed.

Lemma empty_not_renderable fields :
  JS.lookup_field "transcript" fields = Some (JS.Str "") \/
  JS.lookup_field "audioUrl" fields = Some (JS.Str "") ->
  renderable (JS.Obj fields) = false.
Proof.
  unfold renderable. cbn [JS.get]. intros [-> | ->]; cbn [default JS.truthy].
  - done.
  - apply andb_false_r.
Qed.

End Render.

(** C5 fails on the code at every success response whose body is not
    [null] and lacks [transcript] or [audioUrl] (reading the field gives
    [undefined]): [displayResponse] rejects it, with the invalid-response
    status at error severity and the response area hidden, but the next
    statement of [sendAudioToApi] replaces that status, so the status the
    user is left with is ["Response received."] at normal severity and no
    error is reported.  Nothing is rendered: the area stays hidden and
    neither the transcript nor the audio reference is written. *)
Theorem C5_missing_field_error_overwritten (s : State) (response : Response)
    (data : JS.value) :
  ok response = true ->
  json response = Json data ->
  JS.get data "transcript" = Some JS.Undefined \/
  JS.get data "audioUrl" = Some JS.Undefined ->
  (displayResponse data s = Normal (rejected s) /\
   statusMessage (dom (rejected s)) = "Received an invalid response from the assistant." /\
   status_is_error (rejected s) = true) /\
  (let s' := sendAudioToApi_settled (Responded response) s in
   statusMessage (dom s') = "Response received." /\
   status_is_error s' = false /\
   responseArea_display (dom s') = "none" /\
   transcriptOutput (dom s') = transcriptOutput (dom s) /\
   audioPlayer_src (dom s') = audioPlayer_src (dom s) /\
   audioPlayer_display (dom s') = audioPlayer_display (dom s)).
Proof.
  intros Hok Hj Hmiss.
  assert (JS.get data "transcript" <> None) as Hnn.
  { destruct Hmiss as [-> | H]; [done|]. by destruct data. }
  assert (renderable data = false) as Hr.
  { unfold renderable. destruct Hmiss as [-> | ->].
    - by destruct (JS.get data "audioUrl").
    - destruct (JS.get data "transcript"); [|done]. apply andb_false_r. }
  pose proof (displayResponse_rejects data s Hnn Hr) as Hd.
  split; [by repeat split|].
  cbv zeta. unfold sendAudioToApi_settled. cbn [sendAudioToApi_try].
  rewrite Hok, Hj, Hd. by repeat split.
Qed.

Lemma C5_missing_field_error_overwritten_witness :
  let response :=
    {| status := 200; statusText := "OK";
       json := Json (JS.Obj [("audioUrl", JS.Str "https://cdn.example/resp1.mp3")]) |} in
  let s' := sendAudioToApi_settled (Responded response) Sample.sending in
  statusMessage (dom s') = "Response received." /\ status_is_error s' = false.
Proof.
  cbv zeta.
  destruct (C5_missing_field_error_overwritten Sample.sending
              {| status := 200; statusText := "OK";
                 json := Json (JS.Obj [("audioUrl", JS.Str "https://cdn.example/resp1.mp3")]) |}
              (JS.Obj [("audioUrl", JS.Str "https://cdn.example/resp1.mp3")])
              eq_refl eq_refl (or_introl eq_refl)) as (_ & H1 & H2 & _).
  split; [exact H1|exact H2].
Defined.

(** C10.  An object whose [transcript] or [audioUrl] is the empty string is
    not renderable, and [displayResponse] does with it exactly what it does
    with an object that has neither field: the invalid-response error,
    the response area hidden, nothing rendered. *)
Theorem C10_empty_field_rejected (s : State) fields :
  JS.lookup_field "transcript" fields = Some (JS.Str "") \/
  JS.lookup_field "audioUrl" fields = Some (JS.Str "") ->
  renderable (JS.Obj fields) = false /\
  displayResponse (JS.Obj fields) s = displayResponse (JS.Obj []) s /\
  displayResponse (JS.Obj fields) s = Normal (rejected s) /\
  statusMessage (dom (rejected s)) = "Received an invalid response from the assistant." /\
  status_is_error (rejected s) = true /\
  responseArea_display (dom (rejected s)) = "none" /\
  transcriptOutput (dom (rejected s)) = transcriptOutput (dom s) /\
  audioPlayer_src (dom (rejected s)) = audioPlayer_src (dom s).
Proof.
  intros H. pose proof (empty_not_renderable fields H) as Hr.
  split; [exact Hr|]. rewrite (displayResponse_object fields s Hr).
  by repeat split.
Qed.

Lemma C10_empty_field_rejected_witness :
  displayResponse
    (JS.Obj [("transcript", JS.Str "Turn on Wi-Fi by..."); ("audioUrl", JS.Str "")])
    Sample.sending
  = Normal (rejected Sample.sending).
Proof.
  apply (C10_empty_field_rejected Sample.sending
           [("transcript", JS.Str "Turn on Wi-Fi by..."); ("audioUrl", JS.Str "")]).
  right. reflexivity.
Defined.

(* ================================================================== *)
(** ** Stopping with nothing captured *)
(* ================================================================== *)

(** C6.  When the recorder's stop event is delivered and no chunk has been
    kept, the status is the no-audio message with error severity (not the
    recording-error one), no read of a blob is started, no request is
    issued, and the machine is Idle. *)
Theorem C6_zero_chunks_no_send (r : nat) (rec : Recorder) (s : State) :
  recorders (browser s) !! r = Some rec ->
  rec_stopQueued rec = true ->
  audioChunks (vars s) = [] ->
  let s' := step (RecorderStop r) s in
  s' = onstop (rec_stream rec) (update_recorder r stop_delivered s) /\
  statusMessage (dom s') = "No audio was recorded. Please try again." /\
  status_is_error s' = true /\
  pendingReads (browser s') = pendingReads (browser s) /\
  inFlight (browser s') = inFlight (browser s) /\
  Idle s'.
Proof.
  intros Hr Hq Hc. cbn [step]. rewrite Hr, Hq. cbv zeta.
  split; [reflexivity|]. unfold onstop. cbn [update_recorder upd_browser vars].
  rewrite Hc. by repeat split.
Qed.

Lemma C6_zero_chunks_no_send_witness :
  let s' := step (RecorderStop 0) Sample.stopping in
  inFlight (browser s') = inFlight (browser Sample.stopping) /\
  statusMessage (dom s') = "No audio was recorded. Please try again.".
Proof.
  assert (recorders (browser Sample.stopping) !! 0%nat
          = Some {| rec_stream := 0; rec_state := Inactive;
                    rec_mimeType := "audio/webm;codecs=opus"; rec_stopQueued := true |})
    as Hr by (vm_compute; reflexivity).
  assert (audioChunks (vars Sample.stopping) = []) as Hc by (vm_compute; reflexivity).
  destruct (C6_zero_chunks_no_send 0 _ Sample.stopping Hr eq_refl Hc)
    as (_ & Hm & _ & _ & Hf & _).
  split; [exact Hf|exact Hm].
Defined.

(* ================================================================== *)
(** ** Starting a cycle *)
(* ================================================================== *)

Section Start.

(** Building and starting the recorder touches no element but the
    status, the control and its label. *)
Lemma startRecording_record_answer (g : Grant) (stream : nat) (s : State) :
  let s' := startRecording_record g stream s in
  transcriptOutput (dom s') = transcriptOutput (dom s) /\
  audioPlayer_src (dom s') = audioPlayer_src (dom s) /\
  audioPlayer_display (dom s') = audioPlayer_display (dom s) /\
  responseArea_display (dom s') = responseArea_display (dom s).
Proof.
  unfold startRecording_record.
  destruct (new_MediaRecorder g); [destruct (start_error g)|]; by repeat split.
Qed.

End Start.

(** C9.  When device access is granted, the statements that clear the
    previous answer run before the recorder is built and started: in the
    state the recorder is built in, and in the state the handler leaves,
    the transcript is empty, the audio reference is empty, and the response
    area and the player are hidden; and clearing has started no recorder. *)
Theorem C9_previous_answer_cleared (g : Grant) (s : State) :
  let stream := length (streams (browser s)) in
  let opened :=
    upd_browser (fun b => set_streams (streams b ++ [repeat Live (grant_tracks g)]) b) s in
  let cleared := startRecording_prepare opened in
  let s' := startRecording_granted g s in
  s' = startRecording_record g stream cleared /\
  (transcriptOutput (dom cleared) = "" /\ audioPlayer_src (dom cleared) = "" /\
   responseArea_display (dom cleared) = "none" /\ audioPlayer_display (dom cleared) = "none") /\
  recorders (browser cleared) = recorders (browser s) /\
  (transcriptOutput (dom s') = "" /\ audioPlayer_src (dom s') = "" /\
   responseArea_display (dom s') = "none" /\ audioPlayer_display (dom s') = "none").
Proof.
  cbv zeta. split; [reflexivity|]. split; [by repeat split|]. split; [reflexivity|].
  unfold startRecording_granted.
  destruct (startRecording_record_answer g (length (streams (browser s)))
              (startRecording_prepare
                 (upd_browser
                    (fun b => set_streams (streams b ++ [repeat Live (grant_tracks g)]) b) s)))
    as (-> & -> & -> & ->).
  by repeat split.
Qed.

(* ================================================================== *)
(** ** Every cycle ends in Idle *)
(* ================================================================== *)

Section Terminal.

Lemma displayResponse_keeps_control (data : JS.value) (s : State) :
  match displayResponse data s with
  | Normal s' | Throw _ s' => micButton_disabled (dom s') = micButton_disabled (dom s)
  end.
Proof.
  unfold displayResponse.
  destruct (JS.get data "transcript") as [t|]; [|done].
  destruct (JS.truthy t) eqn:Ht; [|by rewrite Ht].
  destruct (JS.get data "audioUrl") as [a|]; [|done].
  destruct (JS.truthy a); [|done].
  destruct (JS.to_string t); [|done]. by destruct (JS.to_string a).
Qed.

Lemma sendAudioToApi_settled_keeps_control (o : FetchOutcome) (s : State) :
  micButton_disabled (dom (sendAudioToApi_settled o s)) = micButton_disabled (dom s).
Proof.
  unfold sendAudioToApi_settled, sendAudioToApi_try.
  destruct o as [response|m]; [|done].
  destruct (negb (ok response)); [by destruct (JS.to_string (errorMsg response))|].
  destruct (json response) as [data|m]; [|done].
  pose proof (displayResponse_keeps_control data s) as H.
  by destruct (displayResponse data s).
Qed.

Lemma onerror_Idle (stream : nat) (name : string) (s : State) :
  Idle (onerror stream name s) /\
  micButton_disabled (dom (onerror stream name s)) = micButton_disabled (dom s).
Proof. unfold onerror. cbn. by case_match. Qed.

(** Each of the eight outcomes does occur. *)
Lemma every_outcome_occurs (o : Outcome) : exists s s', ends o s s'.
Proof.
  destruct o.
  - exists Sample.sending. eexists.
    by apply (ends_Rendered Sample.answer
                (JS.Obj [("transcript", JS.Str "Turn on Wi-Fi by...");
                         ("audioUrl", JS.Str "https://cdn.example/resp1.mp3")])).
  - exists Sample.asking. eexists. apply (ends_PermissionDenied "Permission denied").
  - exists Sample.sending. eexists. apply (ends_RecordingFailed 0 "UnknownError").
  - exists Sample.stopping. eexists. apply (ends_NoAudioCaptured 0).
    vm_compute. reflexivity.
  - exists Sample.sending. eexists.
    apply (ends_EncodingFailed (new_Blob [Sample.hi] "audio/webm") "NotReadableError").
  - exists Sample.sending. eexists. apply (ends_NetworkError "Failed to fetch").
  - exists Sample.sending. eexists. by apply (ends_RemoteError Sample.upstream_failure).
  - exists Sample.sending. eexists.
    apply (ends_InvalidResponseShape Sample.no_audioUrl); [done|].
    by intros data [= <-].
Qed.

End Terminal.

(** C8.  Whichever way a cycle ends (the answer rendered, access denied, a
    recording error, no audio captured, the encoding failed, the network
    failed, a non-success response, an invalid response), the handler that
    ends it leaves the machine Idle: [isRecording] false, the control
    without its recording mark and with its idle label, and as enabled as
    it was. *)
Theorem C8_every_outcome_returns_to_Idle (o : Outcome) (s s' : State) :
  ends o s s' ->
  Idle s' /\ micButton_disabled (dom s') = micButton_disabled (dom s).
Proof.
  intros H. destruct H as
    [response data s _ _ _|response s _ _|response s _|message s|blob error s
    |stream s Hc|stream name s|message s].
  1-4: split; [apply sendAudioToApi_settled_Idle|apply sendAudioToApi_settled_keeps_control].
  - by repeat split.
  - unfold onstop. rewrite Hc. by repeat split.
  - apply onerror_Idle.
  - by repeat split.
Qed.

Lemma C8_every_outcome_returns_to_Idle_witness :
  Idle (sendAudioToApi_settled (Responded Sample.upstream_failure) Sample.sending) /\
  micButton_disabled
    (dom (sendAudioToApi_settled (Responded Sample.upstream_failure) Sample.sending))
  = micButton_disabled (dom Sample.sending).
Proof.
  apply (C8_every_outcome_returns_to_Idle RemoteError Sample.sending).
  apply (ends_RemoteError Sample.upstream_failure). reflexivity.
Defined.

(* ================================================================== *)
(** ** The encoding round trip *)
(* ================================================================== *)

Section Encoding.


Lemma append_nil (s : string) : "" +:+ s = s.
Proof. reflexivity. Qed.

Lemma append_cons (a : ascii) (s t : string) : String a s +:+ t = String a (s +:+ t).
Proof. reflexivity. Qed.

Lemma append_assoc (s t u : string) : (s +:+ t) +:+ u = s +:+ t +:+ u.
Proof. induction s as [|a s IH]; [done|]. by rewrite !append_cons, IH. Qed.

Lemma split_cons (c a : ascii) (s : string) :
  Ascii.eqb a c = false ->
  JS.split c (String a s) = match JS.split c s with
                            | [] => [String a EmptyString]
                            | h :: t => String a h :: t
                            end.
Proof. intros H. cbn [JS.split]. by rewrite H. Qed.

Lemma split_not_nil (c : ascii) (s : string) : JS.split c s <> [].
Proof.
  destruct s as [|a s]; [done|]. cbn [JS.split].
  destruct (Ascii.eqb a c); [done|]. by destruct (JS.split c s).
Qed.

(** A text with no comma splits into itself; so does that text before
    a comma-free tail. *)
Lemma split_append (p tail : string) :
  JS.split "," p = [p] ->
  JS.split "," tail = [tail] ->
  JS.split "," (p +:+ tail) = [p +:+ tail].
Proof.
  intros Hp Ht. induction p as [|a p IH]; [by rewrite append_nil|].
  rewrite append_cons. cbn [JS.split] in Hp |- *.
  destruct (Ascii.eqb a ","); [done|].
  destruct (JS.split "," p) as [|h t] eqn:Hs; [by destruct (split_not_nil "," p)|].
  injection Hp as -> ->. by rewrite (IH eq_refl).
Qed.

(** Splitting at the one comma between two comma-free texts. *)
Lemma split_prefix (p tail : string) :
  JS.split "," p = [p] ->
  JS.split "," tail = [tail] ->
  JS.split "," (p +:+ "," +:+ tail) = [p; tail].
Proof.
  intros Hp Ht. induction p as [|a p IH].
  - rewrite append_nil, append_cons, append_nil. cbn [JS.split].
    by rewrite Ascii.eqb_refl, Ht.
  - rewrite append_cons. cbn [JS.split] in Hp |- *.
    destruct (Ascii.eqb a ","); [done|].
    destruct (JS.split "," p) as [|h t] eqn:Hs; [by destruct (split_not_nil "," p)|].
    injection Hp as -> ->. by rewrite (IH eq_refl).
Qed.

Lemma encode_nonempty (bs : list byte) :
  bs <> [] -> String.eqb (Base64.encode bs) "" = false.
Proof.
  destruct bs as [|a [|b [|c rest]]]; [done|..]; intros _; cbn [Base64.encode].
  - by destruct (Base64.pack3 a Base64.zero Base64.zero) as [[[? ?] ?] ?].
  - by destruct (Base64.pack3 a b Base64.zero) as [[[? ?] ?] ?].
  - by destruct (Base64.pack3 a b c) as [[[? ?] ?] ?].
Qed.

(** The body [sendAudioToApi] sends is the base64 text alone, and it
    decodes to the blob's bytes, when the blob is not empty and its type
    has no comma. *)
Lemma base64Data_round_trip (blob : Blob) :
  blob_bytes blob <> [] ->
  JS.split "," (blob_type blob) = [blob_type blob] ->
  base64Data (readAsDataURL blob) = Base64.encode (blob_bytes blob) /\
  Base64.decode (base64Data (readAsDataURL blob)) = Some (blob_bytes blob).
Proof.
  intros Hne Hty.
  assert (base64Data (readAsDataURL blob) = Base64.encode (blob_bytes blob)) as ->.
  { unfold base64Data, readAsDataURL, dataURL_prefix.
    change ";base64," with (";base64" +:+ ",").
    rewrite <- (append_assoc "data:"), <- (append_assoc _ ";base64" ","), !append_assoc.
    rewrite <- (append_assoc "data:"), <- (append_assoc _ ";base64").
    rewrite split_prefix; [|..|apply split_encode].
    - cbn [lookup list_lookup]. by rewrite (encode_nonempty _ Hne).
    - rewrite append_assoc. apply split_append; [done|].
      by apply split_append. }
  split; [done|]. apply decode_encode.
Qed.

(** The chunks [ondataavailable] keeps are not empty. *)
Lemma ondataavailable_nonempty (data : Chunk) (s : State) :
  Forall (fun c => c <> []) (audioChunks (vars s)) ->
  Forall (fun c => c <> []) (audioChunks (vars (ondataavailable data s))).
Proof.
  intros H. unfold ondataavailable. destruct data as [|b data]; [done|].
  cbn. apply Forall_app. split; [done|]. by apply Forall_singleton.
Qed.

(** From the recorder's stop event to the request: with chunks kept and
    a recorder whose type has no comma, [onstop] starts the read of one
    blob holding the chunks' bytes, and when the read completes the body
    put in flight decodes to those bytes. *)
Lemma recorded_audio_round_trip (stream r : nat) (rec : Recorder) (s : State) :
  audioChunks (vars s) <> [] ->
  Forall (fun c => c <> []) (audioChunks (vars s)) ->
  mediaRecorder (vars s) = Some r ->
  recorders (browser s) !! r = Some rec ->
  JS.split "," (rec_mimeType rec) = [rec_mimeType rec] ->
  exists blob body,
    pendingReads (browser (onstop stream s)) = pendingReads (browser s) ++ [blob] /\
    blob_bytes blob = concat (audioChunks (vars s)) /\
    (forall s2, inFlight (browser (onstop_read blob ReadOk s2))
                = inFlight (browser s2) ++ [body]) /\
    Base64.decode body = Some (concat (audioChunks (vars s))).
Proof.
  intros Hne Hall Hm Hr Hty. unfold onstop. rewrite Hm, Hr.
  destruct (audioChunks (vars s)) as [|c cs] eqn:Hc; [done|].
  cbn [length Nat.eqb fmap option_fmap option_map default].
  set (blob := new_Blob (c :: cs) _).
  assert (blob_bytes blob <> []) as Hb.
  { cbn. apply Forall_cons in Hall as [H1 _]. by destruct c. }
  assert (JS.split "," (blob_type blob) = [blob_type blob]) as Ht.
  { cbn. by destruct (String.eqb (rec_mimeType rec) ""). }
  destruct (base64Data_round_trip blob Hb Ht) as [Hbody Hdec].
  exists blob, (base64Data (readAsDataURL blob)).
  split; [reflexivity|]. split; [reflexivity|]. split; [reflexivity|exact Hdec].
Qed.

End Encoding.



(* ================================================================== *)
(** ** Chunks as they arrive *)
(* ================================================================== *)

Section Chunks.

Lemma ondataavailable_chunks (data : Chunk) (s : State) :
  ondataavailable data s
  = upd_vars (set_audioChunks (audioChunks (vars s) ++ kept [data])) s.
Proof.
  unfold ondataavailable, kept. cbn [List.filter].
  destruct (0 <? length data)%nat; [done|].
  rewrite app_nil_r. by destruct s as [[] ? ?].
Qed.

Lemma run_cons (e : Event) (es : list Event) (s : State) :
  run (e :: es) s = run es (step e s).
Proof. reflexivity. Qed.

Lemma run_app (es1 es2 : list Event) (s : State) :
  run (es1 ++ es2) s = run es2 (run es1 s).
Proof. apply foldl_app. Qed.

End Chunks.

(** A series of [dataavailable] events of a recorder that is recording
    appends to [audioChunks] the chunks of positive size, in the order
    they arrived, drops the empty ones, and changes nothing else. *)
Theorem chunks_kept_in_arrival_order (r : nat) (rec : Recorder) (ds : list Chunk) (s : State) :
  recorders (browser s) !! r = Some rec ->
  is_recording rec = true ->
  run (List.map (DataAvailable r) ds) s
  = upd_vars (set_audioChunks (audioChunks (vars s) ++ kept ds)) s.
Proof.
  intros Hr Hrec. revert s Hr. induction ds as [|d ds IH]; intros s Hr.
  - cbn. rewrite app_nil_r. by destruct s as [[] ? ?].
  - cbn [List.map]. rewrite run_cons. cbn [step]. rewrite Hr, Hrec. cbn [orb].
    rewrite ondataavailable_chunks, IH by done.
    unfold upd_vars, set_audioChunks, kept.
    destruct d; cbn; by rewrite <- ?app_assoc, ?app_nil_r.
Qed.

Lemma chunks_kept_in_arrival_order_witness :
  audioChunks (vars (run (List.map (DataAvailable 0) [[]; Sample.hi; []; Sample.hi])
                         (run [Click; AccessGranted granted] loaded)))
  = [Sample.hi; Sample.hi].
Proof.
  rewrite (chunks_kept_in_arrival_order 0
             {| rec_stream := 0; rec_state := Recording;
                rec_mimeType := "audio/webm;codecs=opus"; rec_stopQueued := false |});
    vm_compute; reflexivity.
Defined.

Section Chunk_invariant.

(** The handlers other than [ondataavailable] and the start of a cycle
    leave [audioChunks] alone. *)
Lemma sendAudioToApi_settled_chunks (o : FetchOutcome) (s : State) :
  audioChunks (vars (sendAudioToApi_settled o s)) = audioChunks (vars s).
Proof.
  unfold sendAudioToApi_settled, sendAudioToApi_try.
  destruct o as [response|m]; [|done].
  destruct (negb (ok response)); [by destruct (JS.to_string (errorMsg response))|].
  destruct (json response) as [data|m]; [|done].
  unfold displayResponse.
  destruct (JS.get data "transcript") as [t|]; [|done].
  destruct (JS.truthy t) eqn:Ht; [|by rewrite Ht].
  destruct (JS.get data "audioUrl") as [a|]; [|done].
  destruct (JS.truthy a); [|done].
  destruct (JS.to_string t); [|done]. by destruct (JS.to_string a).
Qed.

Lemma onstop_chunks (stream : nat) (s : State) :
  audioChunks (vars (onstop stream s)) = audioChunks (vars s).
Proof.
  unfold onstop.
  destruct (length (audioChunks (vars s)) =? 0)%nat; [done|].
  by destruct (mediaRecorder (vars s)).
Qed.

Lemma onerror_chunks (stream : nat) (name : string) (s : State) :
  audioChunks (vars (onerror stream name s)) = audioChunks (vars s).
Proof. unfold onerror. cbn. by case_match. Qed.

Lemma stopRecording_chunks (s : State) :
  audioChunks (vars (stopRecording s)) = audioChunks (vars s).
Proof. unfold stopRecording. by repeat case_match. Qed.

Lemma startRecording_chunks (s : State) :
  audioChunks (vars (startRecording s)) = audioChunks (vars s).
Proof. unfold startRecording. by case_match. Qed.

Lemma startRecording_granted_chunks (g : Grant) (s : State) :
  audioChunks (vars (startRecording_granted g s)) = [].
Proof.
  unfold startRecording_granted, startRecording_record.
  destruct (new_MediaRecorder g); [destruct (start_error g)|]; done.
Qed.

Lemma step_chunks_nonempty (e : Event) (s : State) :
  chunks_nonempty s -> chunks_nonempty (step e s).
Proof.
  unfold chunks_nonempty. intros H. destruct e as [|g|m|r data|r|r name|i o|i o]; cbn [step].
  - destruct (micButton_disabled (dom s)); [done|]. unfold micButton_click.
    destruct (negb (isRecording (vars s)));
      by rewrite ?startRecording_chunks, ?stopRecording_chunks.
  - destruct (pendingAccess (browser s)); [done|].
    by rewrite startRecording_granted_chunks.
  - by destruct (pendingAccess (browser s)).
  - destruct (recorders (browser s) !! r) as [rec|]; [|done].
    destruct (is_recording rec || rec_stopQueued rec); [|done].
    by apply ondataavailable_nonempty.
  - destruct (recorders (browser s) !! r) as [rec|]; [|done].
    destruct (rec_stopQueued rec); [|done]. by rewrite onstop_chunks.
  - destruct (recorders (browser s) !! r) as [rec|]; [|done].
    destruct (is_recording rec); [|done]. by rewrite onerror_chunks.
  - destruct (pendingReads (browser s) !! i) as [blob|]; [|done].
    unfold onstop_read. by destruct (blobToBase64 blob o).
  - destruct (inFlight (browser s) !! i); [|done].
    by rewrite sendAudioToApi_settled_chunks.
Qed.

End Chunk_invariant.

(** Whatever happens after the page has loaded, no chunk held in
    [audioChunks] is empty: the only statement that adds one is behind the
    size test of [ondataavailable]. *)
Theorem chunks_never_empty (es : list Event) :
  chunks_nonempty (run es loaded).
Proof.
  induction es as [|e es IH] using rev_ind.
  - by apply Forall_nil.
  - rewrite run_app. apply step_chunks_nonempty, IH.
Qed.

(* ================================================================== *)
(** ** A browser without the media API *)
(* ================================================================== *)

(** Without [navigator.mediaDevices.getUserMedia] the script's top level
    disables the control, and the status it leaves is the ordinary
    invitation to click: the unsupported-browser error written first is
    replaced by the last statement of the script. *)
Theorem script_unsupported (page : State) :
  mediaDevices (browser page) = false ->
  micButton_disabled (dom (script page)) = true /\
  statusMessage (dom (script page)) = "Click the microphone button to start." /\
  status_is_error (script page) = false /\
  vars (script page) = vars page /\
  browser (script page) = browser page.
Proof. intros H. unfold script. by rewrite H. Qed.

Lemma script_unsupported_witness :
  micButton_disabled (dom (script (document false))) = true.
Proof. apply (script_unsupported (document false)). reflexivity. Defined.

(** In a browser without the media API nothing ever starts: on a page
    with nothing in progress, whatever the user and the browser do after
    the script has run, the state stays what the top level left. *)
Theorem unsupported_nothing_happens (page : State) (es : list Event) :
  mediaDevices (browser page) = false ->
  recorders (browser page) = [] ->
  pendingAccess (browser page) = 0%nat ->
  pendingReads (browser page) = [] ->
  inFlight (browser page) = [] ->
  run es (script page) = script page.
Proof.
  intros Hm Hr Ha Hp Hf. induction es as [|e es IH]; [done|].
  rewrite run_cons.
  assert (step e (script page) = script page) as ->; [|done].
  unfold script. rewrite Hm. cbn [negb].
  destruct e as [|g|m|r data|r|r name|i o|i o]; cbn; rewrite ?Hr, ?Ha, ?Hp, ?Hf; done.
Qed.

Lemma unsupported_nothing_happens_witness :
  run [Click; AccessGranted granted; Click] (script (document false))
  = script (document false).
Proof. apply (unsupported_nothing_happens (document false)); reflexivity. Defined.

(** [startRecording] itself checks for the API again: without it the
    error is reported and device access is not asked for. *)
Theorem startRecording_unsupported (s : State) :
  mediaDevices (browser s) = false ->
  statusMessage (dom (startRecording s)) = "Media Devices API not supported." /\
  status_is_error (startRecording s) = true /\
  browser (startRecording s) = browser s /\
  vars (startRecording s) = vars s.
Proof. intros H. unfold startRecording. by rewrite H. Qed.

Lemma startRecording_unsupported_witness :
  pendingAccess (browser (startRecording (document false))) = 0%nat.
Proof.
  destruct (startRecording_unsupported (document false) eq_refl) as (_ & _ & -> & _).
  reflexivity.
Defined.

(* ================================================================== *)
(** ** Granting access and pressing again *)
(* ================================================================== *)

Section Recording.

Lemma lookup_snoc {A} (l : list A) (x : A) : (l ++ [x]) !! length l = Some x.
Proof. by rewrite list_lookup_middle. Qed.

Lemma alter_snoc {A} (f : A -> A) (l : list A) (x : A) :
  alter f (length l) (l ++ [x]) = l ++ [f x].
Proof. induction l as [|a l IH]; [done|]. cbn. by rewrite IH. Qed.

(** What [startRecording_granted] leaves when the recorder is built and
    started. *)
Lemma startRecording_granted_ok (g : Grant) (mimeType : string) (s : State) :
  new_MediaRecorder g = inl mimeType ->
  start_error g = None ->
  startRecording_granted g s
  = s |> upd_browser (fun b => set_streams (streams b ++ [repeat Live (grant_tracks g)]) b)
      |> startRecording_prepare
      |> upd_browser (fun b =>
           set_recorders (recorders b ++
             [{| rec_stream := length (streams (browser s)); rec_state := Recording;
                 rec_mimeType := mimeType; rec_stopQueued := false |}]) b)
      |> upd_vars (set_mediaRecorder (Some (length (recorders (browser s))))).
Proof.
  intros Hn Hs. unfold startRecording_granted, startRecording_record.
  rewrite Hn, Hs. unfold update_recorder. cbn.
  unfold upd_vars, upd_browser, set_recorders. cbn. by rewrite alter_snoc.
Qed.

End Recording.

(** When access is granted and the recorder is built and started, the
    machine is recording: [isRecording] is true, the control carries its
    recording mark and label, the chunks of any earlier cycle are gone,
    [mediaRecorder] refers to a new recorder that is recording the new
    stream in the negotiated format, and nothing has been sent. *)
Theorem granted_starts_recording (g : Grant) (mimeType : string) (s : State) :
  new_MediaRecorder g = inl mimeType ->
  start_error g = None ->
  let s' := startRecording_granted g s in
  isRecording (vars s') = true /\
  micButton_recording (dom s') = true /\
  micText (dom s') = "Recording... Click to stop" /\
  statusMessage (dom s') = "Recording started..." /\
  status_is_error s' = false /\
  audioChunks (vars s') = [] /\
  mediaRecorder (vars s') = Some (length (recorders (browser s))) /\
  recorders (browser s') !! length (recorders (browser s))
  = Some {| rec_stream := length (streams (browser s)); rec_state := Recording;
            rec_mimeType := mimeType; rec_stopQueued := false |} /\
  streams (browser s') !! length (streams (browser s))
  = Some (repeat Live (grant_tracks g)) /\
  inFlight (browser s') = inFlight (browser s) /\
  pendingReads (browser s') = pendingReads (browser s).
Proof.
  intros Hn Hs. cbv zeta. rewrite (startRecording_granted_ok g mimeType s Hn Hs).
  cbn. rewrite !lookup_snoc. by repeat split.
Qed.

Lemma granted_starts_recording_witness :
  isRecording (vars (startRecording_granted granted loaded)) = true.
Proof.
  apply (granted_starts_recording granted "audio/webm;codecs=opus" loaded); reflexivity.
Defined.

(** When neither constructor yields a recorder, or [start()] throws, the
    outer catch reports the error as a microphone-access error and resets
    the control; the stream that was granted is not stopped, so its tracks
    stay live, and nothing is read or sent. *)
Theorem recorder_failure_keeps_stream (g : Grant) (message : string) (s : State) :
  (new_MediaRecorder g = inr message \/
   (exists mimeType, new_MediaRecorder g = inl mimeType) /\ start_error g = Some message) ->
  let s' := startRecording_granted g s in
  statusMessage (dom s')
  = "Could not access microphone: " +:+ message +:+ ". Please grant permission." /\
  status_is_error s' = true /\
  Idle s' /\
  streams (browser s') = streams (browser s) ++ [repeat Live (grant_tracks g)] /\
  inFlight (browser s') = inFlight (browser s) /\
  pendingReads (browser s') = pendingReads (browser s).
Proof.
  intros H. cbv zeta. unfold startRecording_granted, startRecording_record.
  destruct H as [-> | [[mimeType ->] ->]]; by repeat split.
Qed.

Lemma recorder_failure_keeps_stream_witness :
  let g := {| grant_tracks := 1; opus_supported := false;
              default_recorder := inr "NotSupportedError"; start_error := None |} in
  device_held (startRecording_granted g loaded) = true.
Proof.
  cbv zeta.
  destruct (recorder_failure_keeps_stream
              {| grant_tracks := 1; opus_supported := false;
                 default_recorder := inr "NotSupportedError"; start_error := None |}
              "NotSupportedError" loaded (or_introl eq_refl))
    as (_ & _ & _ & Hst & _).
  unfold device_held. rewrite Hst. reflexivity.
Defined.

(** A press while the recorder [mediaRecorder] refers to is recording
    stops it: the recorder goes inactive with its stop event queued, the
    status says so, [isRecording] is false at once and the label reads
    processing; nothing is read or sent by the press itself. *)
Theorem press_stops_recorder (r : nat) (rec : Recorder) (s : State) :
  micButton_disabled (dom s) = false ->
  isRecording (vars s) = true ->
  mediaRecorder (vars s) = Some r ->
  recorders (browser s) !! r = Some rec ->
  is_recording rec = true ->
  let s' := step Click s in
  recorders (browser s') !! r = Some (MediaRecorder_stop rec) /\
  statusMessage (dom s') = "Stopping recording..." /\
  status_is_error s' = false /\
  isRecording (vars s') = false /\
  micButton_recording (dom s') = false /\
  micText (dom s') = "Processing..." /\
  audioChunks (vars s') = audioChunks (vars s) /\
  inFlight (browser s') = inFlight (browser s) /\
  pendingReads (browser s') = pendingReads (browser s) /\
  pendingAccess (browser s') = pendingAccess (browser s).
Proof.
  intros Hen Hrec Hm Hr Hst. cbn [step]. rewrite Hen.
  rewrite (micButton_click_recording s Hrec). unfold stopRecording.
  rewrite Hm, Hr. cbn [fmap option_fmap option_map default]. rewrite Hst. cbn.
  rewrite list_lookup_alter_eq, Hr. by repeat split.
Qed.

Lemma press_stops_recorder_witness :
  statusMessage (dom (step Click (startRecording_granted granted loaded)))
  = "Stopping recording...".
Proof.
  apply (press_stops_recorder 0
           {| rec_stream := 0; rec_state := Recording;
              rec_mimeType := "audio/webm;codecs=opus"; rec_stopQueued := false |}
           (startRecording_granted granted loaded)); reflexivity.
Defined.

(** A press while [isRecording] is true never leaves it true, whatever
    [mediaRecorder] refers to, and never asks for access, reads or sends:
    with no recorder recording the control is simply reset to Idle. *)
Theorem press_while_recording (s : State) :
  micButton_disabled (dom s) = false ->
  isRecording (vars s) = true ->
  let s' := step Click s in
  isRecording (vars s') = false /\
  micButton_recording (dom s') = false /\
  pendingAccess (browser s') = pendingAccess (browser s) /\
  pendingReads (browser s') = pendingReads (browser s) /\
  inFlight (browser s') = inFlight (browser s) /\
  (default false (is_recording <$> (mediaRecorder (vars s) ≫= (recorders (browser s) !!.)))
   = false -> s' = resetMicButton s).
Proof.
  intros Hen Hrec. cbn [step]. rewrite Hen.
  rewrite (micButton_click_recording s Hrec). unfold stopRecording.
  destruct (mediaRecorder (vars s)) as [r|]; cbn [mbind option_bind]; [|by repeat split].
  destruct (default false (is_recording <$> recorders (browser s) !! r)) eqn:H;
    by repeat split.
Qed.

Lemma press_while_recording_witness :
  mediaRecorder (vars overlapped) = None /\ Idle (step Click overlapped).
Proof.
  split; [vm_compute; reflexivity|].
  assert (micButton_disabled (dom overlapped) = false) as Hen by (vm_compute; reflexivity).
  assert (isRecording (vars overlapped) = true) as Hrec by (vm_compute; reflexivity).
  destruct (press_while_recording overlapped Hen Hrec) as (_ & _ & _ & _ & _ & H).
  rewrite H; [apply resetMicButton_Idle|vm_compute; reflexivity].
Defined.

(* ================================================================== *)
(** ** What a settled request leaves *)
(* ================================================================== *)

Section Settled.

(** Where [sendAudioToApi] can throw: before anything is written, or, in
    [displayResponse], at the assignment to [src] when [audioUrl] has no
    string form, after the transcript has been written. *)
Lemma sendAudioToApi_try_throw (o : FetchOutcome) (s s' : State) (m : string) :
  sendAudioToApi_try o s = Throw m s' ->
  s' = s \/
  (m = JS.conversion_error /\
   exists response data transcript audioUrl text,
     o = Responded response /\ json response = Json data /\
     JS.get data "transcript" = Some transcript /\
     JS.get data "audioUrl" = Some audioUrl /\
     JS.to_string transcript = Some text /\
     JS.to_string audioUrl = None /\
     s' = upd_dom (set_transcriptOutput text) s).
Proof.
  unfold sendAudioToApi_try. destruct o as [response|m0]; [|intros [= _ <-]; by left].
  destruct (negb (ok response)).
  { destruct (JS.to_string (errorMsg response)); intros [= _ <-]; by left. }
  destruct (json response) as [data|m0] eqn:Hj; [|intros [= _ <-]; by left].
  unfold displayResponse.
  destruct (JS.get data "transcript") as [t|] eqn:Hgt; [|intros [= _ <-]; by left].
  destruct (JS.truthy t) eqn:Ht; [|by rewrite Ht].
  destruct (JS.get data "audioUrl") as [a|] eqn:Hga; [|intros [= _ <-]; by left].
  destruct (JS.truthy a); [|done].
  destruct (JS.to_string t) as [text|] eqn:Hst; [|intros [= _ <-]; by left].
  destruct (JS.to_string a) as [url|] eqn:Hsa; [done|].
  intros [= <- <-]. right. split; [done|].
  by exists response, data, t, a, text.
Qed.

End Settled.

(** A valid answer is rendered: when both fields are truthy and have a
    string form, the transcript and the audio reference are those texts,
    the player and the response area are shown, the machine is Idle, and
    the status the user is left with is ["Response received."] (the status
    [displayResponse] wrote about pressing play is replaced by the next
    statement). *)
Theorem valid_answer_rendered (response : Response) (data transcript audioUrl : JS.value)
    (text url : string) (s : State) :
  ok response = true ->
  json response = Json data ->
  JS.get data "transcript" = Some transcript ->
  JS.get data "audioUrl" = Some audioUrl ->
  JS.truthy transcript = true ->
  JS.truthy audioUrl = true ->
  JS.to_string transcript = Some text ->
  JS.to_string audioUrl = Some url ->
  let s' := sendAudioToApi_settled (Responded response) s in
  transcriptOutput (dom s') = text /\
  audioPlayer_src (dom s') = url /\
  audioPlayer_display (dom s') = "block" /\
  responseArea_display (dom s') = "block" /\
  statusMessage (dom s') = "Response received." /\
  status_is_error s' = false /\
  Idle s'.
Proof.
  intros Hok Hj Ht Ha Htt Hta Hst Hsa. cbv zeta.
  unfold sendAudioToApi_settled, sendAudioToApi_try, displayResponse.
  rewrite Hok, Hj, Ht, Htt, Ha, Hta, Hst, Hsa. by repeat split.
Qed.

Lemma valid_answer_rendered_witness :
  let s' := sendAudioToApi_settled (Responded Sample.answer) Sample.sending in
  transcriptOutput (dom s') = "Turn on Wi-Fi by..." /\
  audioPlayer_src (dom s') = "https://cdn.example/resp1.mp3".
Proof.
  destruct (valid_answer_rendered Sample.answer
              (JS.Obj [("transcript", JS.Str "Turn on Wi-Fi by...");
                       ("audioUrl", JS.Str "https://cdn.example/resp1.mp3")])
              (JS.Str "Turn on Wi-Fi by...") (JS.Str "https://cdn.example/resp1.mp3")
              "Turn on Wi-Fi by..." "https://cdn.example/resp1.mp3"
              Sample.sending eq_refl eq_refl eq_refl eq_refl eq_refl eq_refl eq_refl eq_refl)
    as (H1 & H2 & _).
  split; [exact H1|exact H2].
Defined.

(** Whenever [sendAudioToApi] catches an error, the status is the prefixed
    message with error severity, the machine is Idle, and the audio
    reference, the two [display] styles, the chunks and the browser's
    operations are what they were.  The transcript is what it was too,
    with one exception: when the error is [audioUrl] having no string
    form, the transcript has already been written. *)
Theorem failed_request_effect (o : FetchOutcome) (m : string) (s s0 : State) :
  sendAudioToApi_try o s = Throw m s0 ->
  let s' := sendAudioToApi_settled o s in
  s' = resetMicButton (updateStatus ("Failed to get response: " +:+ m) true s0) /\
  status_is_error s' = true /\
  Idle s' /\
  audioPlayer_src (dom s') = audioPlayer_src (dom s) /\
  audioPlayer_display (dom s') = audioPlayer_display (dom s) /\
  responseArea_display (dom s') = responseArea_display (dom s) /\
  audioChunks (vars s') = audioChunks (vars s) /\
  browser s' = browser s /\
  (answer_shown s' = answer_shown s \/
   m = JS.conversion_error /\
   exists response data audioUrl,
     o = Responded response /\ json response = Json data /\
     JS.get data "audioUrl" = Some audioUrl /\ JS.to_string audioUrl = None).
Proof.
  intros H. cbv zeta. unfold sendAudioToApi_settled. rewrite H.
  destruct (sendAudioToApi_try_throw o s s0 m H)
    as [-> | (-> & response & data & t & a & text & -> & Hj & _ & Ha & _ & Hsa & ->)].
  - repeat split; by left.
  - repeat split. right. split; [done|]. by exists response, data, a.
Qed.

Lemma failed_request_effect_witness :
  browser (sendAudioToApi_settled (NetworkFailure "Failed to fetch") Sample.sending)
  = browser Sample.sending.
Proof.
  apply (failed_request_effect (NetworkFailure "Failed to fetch")
           "Failed to fetch" Sample.sending Sample.sending eq_refl).
Defined.

(** The exception does occur: a success response whose [transcript] is
    text and whose [audioUrl] is an object with a [toString] field of its
    own leaves the new transcript written behind an error status, with the
    audio reference and the response area untouched. *)
Theorem transcript_written_before_src_fails (response : Response)
    (data transcript audioUrl : JS.value) (text : string) (s : State) :
  ok response = true ->
  json response = Json data ->
  JS.get data "transcript" = Some transcript ->
  JS.get data "audioUrl" = Some audioUrl ->
  JS.truthy transcript = true ->
  JS.truthy audioUrl = true ->
  JS.to_string transcript = Some text ->
  JS.to_string audioUrl = None ->
  let s' := sendAudioToApi_settled (Responded response) s in
  transcriptOutput (dom s') = text /\
  audioPlayer_src (dom s') = audioPlayer_src (dom s) /\
  responseArea_display (dom s') = responseArea_display (dom s) /\
  statusMessage (dom s') = "Failed to get response: " +:+ JS.conversion_error /\
  status_is_error s' = true /\
  Idle s'.
Proof.
  intros Hok Hj Ht Ha Htt Hta Hst Hsa. cbv zeta.
  unfold sendAudioToApi_settled, sendAudioToApi_try, displayResponse.
  rewrite Hok, Hj, Ht, Htt, Ha, Hta, Hst, Hsa. by repeat split.
Qed.

Lemma transcript_written_before_src_fails_witness :
  let response :=
    {| status := 200; statusText := "OK";
       json := Json (JS.Obj [("transcript", JS.Str "Turn on Wi-Fi by...");
                             ("audioUrl", JS.Obj [("toString", JS.Null)])]) |} in
  transcriptOutput (dom (sendAudioToApi_settled (Responded response) Sample.sending))
  = "Turn on Wi-Fi by...".
Proof.
  cbv zeta.
  apply (transcript_written_before_src_fails _
           (JS.Obj [("transcript", JS.Str "Turn on Wi-Fi by...");
                    ("audioUrl", JS.Obj [("toString", JS.Null)])])
           (JS.Str "Turn on Wi-Fi by...") (JS.Obj [("toString", JS.Null)])
           "Turn on Wi-Fi by..." Sample.sending); reflexivity.
Defined.

(** A success response whose body is JSON [null] is not taken for an
    answer without fields: reading [data.transcript] throws, the error is
    caught, and the status the user is left with has error severity. *)
Theorem null_answer_is_an_error (response : Response) (s : State) :
  ok response = true ->
  json response = Json JS.Null ->
  let s' := sendAudioToApi_settled (Responded response) s in
  status_is_error s' = true /\
  statusMessage (dom s')
  = "Failed to get response: " +:+ JS.type_error_message JS.Null "transcript" /\
  answer_shown s' = answer_shown s /\
  Idle s'.
Proof.
  intros Hok Hj. cbv zeta. unfold sendAudioToApi_settled, sendAudioToApi_try.
  rewrite Hok, Hj. by repeat split.
Qed.

Lemma null_answer_is_an_error_witness :
  status_is_error
    (sendAudioToApi_settled
       (Responded {| status := 200; statusText := "OK"; json := Json JS.Null |})
       Sample.sending) = true.
Proof.
  apply (null_answer_is_an_error {| status := 200; statusText := "OK"; json := Json JS.Null |}
           Sample.sending); reflexivity.
Defined.

(** A success response whose body is not JSON is reported with the
    parser's message. *)
Theorem unparsable_answer_is_an_error (response : Response) (message : string) (s : State) :
  ok response = true ->
  json response = JsonError message ->
  let s' := sendAudioToApi_settled (Responded response) s in
  statusMessage (dom s') = "Failed to get response: " +:+ message /\
  status_is_error s' = true /\
  answer_shown s' = answer_shown s /\
  Idle s'.
Proof.
  intros Hok Hj. cbv zeta. unfold sendAudioToApi_settled, sendAudioToApi_try.
  rewrite Hok, Hj. by repeat split.
Qed.

Lemma unparsable_answer_is_an_error_witness :
  status_is_error
    (sendAudioToApi_settled
       (Responded {| status := 200; statusText := "OK";
                     json := JsonError "Unexpected end of JSON input" |})
       Sample.sending) = true.
Proof.
  apply (unparsable_answer_is_an_error
           {| status := 200; statusText := "OK";
              json := JsonError "Unexpected end of JSON input" |}
           "Unexpected end of JSON input" Sample.sending); reflexivity.
Defined.

(** The message of a non-success response: the [error] field when it is
    truthy, else the [message] field when that is truthy, else the status
    code and phrase; the last also when the body is not JSON or is
    [null]. *)
Theorem errorMsg_precedence (response : Response) :
  let generic :=
    JS.Str ("Error: " +:+ pretty (status response) +:+ " " +:+ statusText response) in
  (forall errorData e m,
     json response = Json errorData ->
     JS.get errorData "error" = Some e ->
     JS.get errorData "message" = Some m ->
     (JS.truthy e = true -> errorMsg response = e) /\
     (JS.truthy e = false -> JS.truthy m = true -> errorMsg response = m) /\
     (JS.truthy e = false -> JS.truthy m = false -> errorMsg response = generic)) /\
  (forall message, json response = JsonError message -> errorMsg response = generic) /\
  (json response = Json JS.Null -> errorMsg response = generic).
Proof.
  cbv zeta. unfold errorMsg. split; [|split].
  - intros errorData e m -> -> ->. unfold JS.or.
    split; [by intros ->|]. split; intros -> ->; done.
  - by intros message ->.
  - by intros ->.
Qed.

Lemma errorMsg_precedence_witness :
  errorMsg {| status := 503; statusText := "Service Unavailable";
              json := Json (JS.Obj [("message", JS.Str "try later")]) |}
  = JS.Str "try later".
Proof.
  destruct (errorMsg_precedence
              {| status := 503; statusText := "Service Unavailable";
                 json := Json (JS.Obj [("message", JS.Str "try later")]) |})
    as (H & _ & _).
  destruct (H (JS.Obj [("message", JS.Str "try later")]) JS.Undefined (JS.Str "try later")
              eq_refl eq_refl eq_refl) as (_ & H2 & _).
  apply H2; reflexivity.
Defined.

(** A non-success response with nothing usable in its body is reported by
    status code and phrase. *)
Theorem remote_error_generic_message (response : Response) (s : State) :
  ok response = false ->
  (forall errorData, json response = Json errorData ->
     errorData = JS.Null \/
     exists e m, JS.get errorData "error" = Some e /\ JS.get errorData "message" = Some m /\
                 JS.truthy e = false /\ JS.truthy m = false) ->
  let s' := sendAudioToApi_settled (Responded response) s in
  statusMessage (dom s')
  = "Failed to get response: Error: " +:+ pretty (status response) +:+ " "
    +:+ statusText response /\
  status_is_error s' = true /\
  Idle s'.
Proof.
  intros Hok Hbody. cbv zeta. unfold sendAudioToApi_settled. cbn [sendAudioToApi_try].
  rewrite Hok. cbn [negb].
  assert (errorMsg response
          = JS.Str ("Error: " +:+ pretty (status response) +:+ " " +:+ statusText response))
    as ->; [|by repeat split].
  unfold errorMsg. destruct (json response) as [errorData|m] eqn:Hj; [|done].
  destruct (Hbody errorData eq_refl) as [-> | (e & m & -> & -> & He & Hm)]; [done|].
  unfold JS.or. by rewrite He, Hm.
Qed.

Lemma remote_error_generic_message_witness :
  statusMessage
    (dom (sendAudioToApi_settled
            (Responded {| status := 502; statusText := "Bad Gateway";
                          json := JsonError "Unexpected token <" |})
            Sample.sending))
  = "Failed to get response: Error: 502 Bad Gateway".
Proof.
  apply (remote_error_generic_message
           {| status := 502; statusText := "Bad Gateway";
              json := JsonError "Unexpected token <" |} Sample.sending);
    [reflexivity|discriminate].
Defined.

(* ================================================================== *)
(** ** What the handlers do to the browser's operations *)
(* ================================================================== *)

Section Frames.

Lemma sendAudioToApi_settled_browser (o : FetchOutcome) (s : State) :
  browser (sendAudioToApi_settled o s) = browser s.
Proof.
  unfold sendAudioToApi_settled, sendAudioToApi_try.
  destruct o as [response|m]; [|done].
  destruct (negb (ok response)); [by destruct (JS.to_string (errorMsg response))|].
  destruct (json response) as [data|m]; [|done].
  unfold displayResponse.
  destruct (JS.get data "transcript") as [t|]; [|done].
  destruct (JS.truthy t) eqn:Ht; [|by rewrite Ht].
  destruct (JS.get data "audioUrl") as [a|]; [|done].
  destruct (JS.truthy a); [|done].
  destruct (JS.to_string t); [|done]. by destruct (JS.to_string a).
Qed.

Lemma startRecording_granted_inFlight (g : Grant) (s : State) :
  inFlight (browser (startRecording_granted g s)) = inFlight (browser s).
Proof.
  unfold startRecording_granted, startRecording_record.
  destruct (new_MediaRecorder g); [destruct (start_error g)|]; done.
Qed.

Lemma startRecording_granted_streams (g : Grant) (s : State) :
  streams (browser (startRecording_granted g s))
  = streams (browser s) ++ [repeat Live (grant_tracks g)].
Proof.
  unfold startRecording_granted, startRecording_record.
  destruct (new_MediaRecorder g); [destruct (start_error g)|]; done.
Qed.

Lemma onstop_inFlight (stream : nat) (s : State) :
  inFlight (browser (onstop stream s)) = inFlight (browser s).
Proof.
  unfold onstop. destruct (length (audioChunks (vars s)) =? 0)%nat; [done|].
  by destruct (mediaRecorder (vars s)).
Qed.

Lemma onstop_streams (stream : nat) (s : State) :
  streams (browser (onstop stream s)) = streams (browser s) \/
  streams (browser (onstop stream s)) = alter stop_tracks stream (streams (browser s)).
Proof.
  unfold onstop. destruct (length (audioChunks (vars s)) =? 0)%nat; [by left|].
  destruct (mediaRecorder (vars s)); [by right|by left].
Qed.

Lemma onerror_inFlight (stream : nat) (name : string) (s : State) :
  inFlight (browser (onerror stream name s)) = inFlight (browser s).
Proof. unfold onerror. cbn. by case_match. Qed.

Lemma onerror_streams (stream : nat) (name : string) (s : State) :
  streams (browser (onerror stream name s)) = streams (browser s) \/
  streams (browser (onerror stream name s)) = alter stop_tracks stream (streams (browser s)).
Proof. unfold onerror. cbn. case_match; [by right|by left]. Qed.

Lemma stopRecording_browser (s : State) :
  inFlight (browser (stopRecording s)) = inFlight (browser s) /\
  streams (browser (stopRecording s)) = streams (browser s).
Proof. unfold stopRecording. by repeat case_match. Qed.

Lemma startRecording_browser (s : State) :
  inFlight (browser (startRecording s)) = inFlight (browser s) /\
  streams (browser (startRecording s)) = streams (browser s).
Proof. unfold startRecording. by case_match. Qed.

Lemma ondataavailable_browser (data : Chunk) (s : State) :
  browser (ondataavailable data s) = browser s.
Proof. unfold ondataavailable. by case_match. Qed.

Lemma onstop_read_streams (blob : Blob) (o : ReadOutcome) (s : State) :
  streams (browser (onstop_read blob o s)) = streams (browser s).
Proof. unfold onstop_read. by destruct o. Qed.

(** The streams after one turn of the loop: as they were, or one of them
    stopped, or (on a grant only) one more. *)
Lemma step_streams (e : Event) (s : State) :
  streams (browser (step e s)) = streams (browser s) \/
  (exists i, streams (browser (step e s)) = alter stop_tracks i (streams (browser s))) \/
  (grants_access e = true /\
   exists n, streams (browser (step e s)) = streams (browser s) ++ [repeat Live n]).
Proof.
  destruct e as [|g|m|r data|r|r name|i o|i o]; cbn [step grants_access].
  - left. destruct (micButton_disabled (dom s)); [done|]. unfold micButton_click.
    destruct (negb (isRecording (vars s)));
      [apply startRecording_browser|apply stopRecording_browser].
  - destruct (pendingAccess (browser s)); [by left|]. right. right. split; [done|].
    exists (grant_tracks g). by rewrite startRecording_granted_streams.
  - left. by destruct (pendingAccess (browser s)).
  - left. destruct (recorders (browser s) !! r) as [rec|]; [|done].
    destruct (is_recording rec || rec_stopQueued rec); [|done].
    by rewrite ondataavailable_browser.
  - destruct (recorders (browser s) !! r) as [rec|]; [|by left].
    destruct (rec_stopQueued rec); [|by left].
    destruct (onstop_streams (rec_stream rec) (update_recorder r stop_delivered s))
      as [-> | ->]; [by left|right; left; by eexists].
  - destruct (recorders (browser s) !! r) as [rec|]; [|by left].
    destruct (is_recording rec); [|by left].
    destruct (onerror_streams (rec_stream rec) name (update_recorder r MediaRecorder_fail s))
      as [-> | ->]; [by left|right; left; by eexists].
  - left. destruct (pendingReads (browser s) !! i) as [blob|]; [|done].
    by rewrite onstop_read_streams.
  - left. destruct (inFlight (browser s) !! i); [|done].
    by rewrite sendAudioToApi_settled_browser.
Qed.

Lemma existsb_active_alter (i : nat) (l : list Stream) :
  existsb active l = false -> existsb active (alter stop_tracks i l) = false.
Proof.
  revert i. induction l as [|st l IH]; intros i; [done|].
  cbn [existsb]. intros [H1 H2]%orb_false_elim.
  destruct i as [|i]; cbn.
  - by rewrite active_stop_tracks, H2.
  - by rewrite H1, IH.
Qed.

End Frames.

(** A request is put in flight by one event only, a read that completes;
    every other event leaves the requests in flight as they were or
    settles one of them. *)
Theorem requests_only_after_read (e : Event) (s : State) :
  completes_read e = false ->
  inFlight (browser (step e s)) = inFlight (browser s) \/
  exists i, inFlight (browser (step e s)) = delete i (inFlight (browser s)).
Proof.
  intros He. destruct e as [|g|m|r data|r|r name|i o|i o]; cbn [step].
  - left. destruct (micButton_disabled (dom s)); [done|]. unfold micButton_click.
    destruct (negb (isRecording (vars s)));
      [apply startRecording_browser|apply stopRecording_browser].
  - left. destruct (pendingAccess (browser s)); [done|].
    by rewrite startRecording_granted_inFlight.
  - left. by destruct (pendingAccess (browser s)).
  - left. destruct (recorders (browser s) !! r) as [rec|]; [|done].
    destruct (is_recording rec || rec_stopQueued rec); [|done].
    by rewrite ondataavailable_browser.
  - left. destruct (recorders (browser s) !! r) as [rec|]; [|done].
    destruct (rec_stopQueued rec); [|done]. by rewrite onstop_inFlight.
  - left. destruct (recorders (browser s) !! r) as [rec|]; [|done].
    destruct (is_recording rec); [|done]. by rewrite onerror_inFlight.
  - left. destruct o as [|err]; [done|].
    by destruct (pendingReads (browser s) !! i).
  - destruct (inFlight (browser s) !! i); [|by left].
    right. exists i. by rewrite sendAudioToApi_settled_browser.
Qed.

Lemma requests_only_after_read_witness :
  inFlight (browser (step Click Sample.sending)) = inFlight (browser Sample.sending) \/
  exists i, inFlight (browser (step Click Sample.sending))
            = delete i (inFlight (browser Sample.sending)).
Proof. apply (requests_only_after_read Click Sample.sending). reflexivity. Defined.

(** A read that completes puts exactly one request in flight, carrying
    the blob's data URL without its prefix, takes the read off the
    pending ones and shows the sending status. *)
Theorem completed_read_sends_once (i : nat) (blob : Blob) (s : State) :
  pendingReads (browser s) !! i = Some blob ->
  let s' := step (ReadSettled i ReadOk) s in
  inFlight (browser s') = inFlight (browser s) ++ [base64Data (readAsDataURL blob)] /\
  pendingReads (browser s') = delete i (pendingReads (browser s)) /\
  statusMessage (dom s') = "Sending audio to Via..." /\
  status_is_error s' = false.
Proof. intros H. cbn [step]. rewrite H. by repeat split. Qed.

Lemma completed_read_sends_once_witness :
  inFlight (browser (step (ReadSettled 0 ReadOk) reading))
  = inFlight (browser reading)
    ++ [base64Data (readAsDataURL (new_Blob [Sample.hi] "audio/webm;codecs=opus"))].
Proof.
  assert (pendingReads (browser reading) !! 0%nat
          = Some (new_Blob [Sample.hi] "audio/webm;codecs=opus")) as H
    by (vm_compute; reflexivity).
  apply (completed_read_sends_once 0 _ reading H).
Defined.

(** No request is retried: when a request settles, whatever the outcome,
    it leaves the requests in flight, and the browser is otherwise as it
    was: no request, read or device access is started. *)
Theorem settled_request_not_retried (i : nat) (body : string) (o : FetchOutcome) (s : State) :
  inFlight (browser s) !! i = Some body ->
  browser (step (FetchSettled i o) s)
  = set_inFlight (delete i (inFlight (browser s))) (browser s) /\
  length (inFlight (browser (step (FetchSettled i o) s)))
  = pred (length (inFlight (browser s))).
Proof.
  intros H. cbn [step]. rewrite H, sendAudioToApi_settled_browser. split; [done|].
  cbn. rewrite length_delete; [lia|by eexists].
Qed.

Lemma settled_request_not_retried_witness :
  length (inFlight (browser (step (FetchSettled 0 (NetworkFailure "Failed to fetch"))
                                  Sample.sending)))
  = pred (length (inFlight (browser Sample.sending))).
Proof.
  assert (inFlight (browser Sample.sending) !! 0%nat = Some "aGkh") as H
    by (vm_compute; reflexivity).
  apply (settled_request_not_retried 0 _ (NetworkFailure "Failed to fetch") _ H).
Defined.

(* ================================================================== *)
(** ** The microphone over whole runs *)
(* ================================================================== *)

(** A stream whose tracks have all ended stays so, whatever happens next:
    the script stops tracks and never starts one. *)
Theorem ended_stays_ended (i : nat) (es : list Event) (s : State) :
  ended i s -> ended i (run es s).
Proof.
  revert s. induction es as [|e es IH]; intros s H; [done|].
  rewrite run_cons. apply IH. destruct H as (st & Hst & Hact). unfold ended.
  destruct (step_streams e s) as [-> | [[j ->] | [_ [n ->]]]].
  - by exists st.
  - destruct (decide (j = i)) as [->|Hne].
    + exists (stop_tracks st). rewrite list_lookup_alter_eq, Hst.
      split; [done|apply active_stop_tracks].
    + exists st. by rewrite list_lookup_alter_ne.
  - exists st. split; [|done]. by apply lookup_app_l_Some.
Qed.

Lemma ended_stays_ended_witness :
  ended 0 (run (Sample.cycle 1) Sample.sending).
Proof.
  apply (ended_stays_ended 0 (Sample.cycle 1) Sample.sending).
  exists [Ended]. split; [vm_compute; reflexivity|reflexivity].
Defined.

(** The microphone is taken by a grant and by nothing else: over a run
    without one, a device that is not held stays not held. *)
Theorem held_only_after_grant (es : list Event) (s : State) :
  device_held s = false ->
  forallb (fun e => negb (grants_access e)) es = true ->
  device_held (run es s) = false.
Proof.
  revert s. induction es as [|e es IH]; intros s H Hes; [done|].
  cbn [forallb] in Hes. apply andb_prop in Hes as [He Hes].
  rewrite run_cons. apply IH; [|done]. unfold device_held in *.
  destruct (step_streams e s) as [-> | [[j ->] | [Hg _]]].
  - done.
  - by apply existsb_active_alter.
  - by rewrite Hg in He.
Qed.

Lemma held_only_after_grant_witness :
  device_held (run [Click; AccessDenied "Permission denied"; Click] loaded) = false.
Proof. apply (held_only_after_grant _ loaded); vm_compute; reflexivity. Defined.

Lemma onstop_releases_witness : released 0 (onstop 0 heard).
Proof.
  apply (onstop_releases 0 0); vm_compute; [discriminate|reflexivity].
Defined.

(* ================================================================== *)
(** ** From the stop event to the request *)
(* ================================================================== *)

(** A stop with chunks starts the read of exactly one blob: its bytes are
    the chunks in order, and its type is the recorder's [mimeType], or
    ['audio/webm'] when that is empty, so it is never empty.  The
    recorder reference is cleared, the status says processing, and nothing
    is sent yet. *)
Theorem onstop_reads_one_blob (stream r : nat) (rec : Recorder) (s : State) :
  audioChunks (vars s) <> [] ->
  mediaRecorder (vars s) = Some r ->
  recorders (browser s) !! r = Some rec ->
  let s' := onstop stream s in
  let type := if String.eqb (rec_mimeType rec) "" then "audio/webm" else rec_mimeType rec in
  pendingReads (browser s') = pendingReads (browser s) ++ [new_Blob (audioChunks (vars s)) type] /\
  type <> "" /\
  mediaRecorder (vars s') = None /\
  statusMessage (dom s') = "Processing audio..." /\
  status_is_error s' = false /\
  inFlight (browser s') = inFlight (browser s).
Proof.
  intros Hne Hm Hr. cbv zeta. unfold onstop. rewrite Hm, Hr.
  destruct (audioChunks (vars s)) as [|c cs]; [done|].
  cbn [length Nat.eqb fmap option_fmap option_map default].
  split; [reflexivity|]. split; [|by repeat split].
  destruct (String.eqb_spec (rec_mimeType rec) ""); done.
Qed.

Lemma onstop_reads_one_blob_witness :
  let s := upd_browser (set_recorders
             [{| rec_stream := 0; rec_state := Inactive; rec_mimeType := "";
                 rec_stopQueued := false |}])
             (run [Click; AccessGranted granted; DataAvailable 0 Sample.hi; Click] loaded) in
  pendingReads (browser (onstop 0 s)) = [new_Blob [Sample.hi] "audio/webm"].
Proof.
  cbv zeta.
  destruct (onstop_reads_one_blob 0 0
              {| rec_stream := 0; rec_state := Inactive; rec_mimeType := "";
                 rec_stopQueued := false |}
              (upd_browser (set_recorders
                 [{| rec_stream := 0; rec_state := Inactive; rec_mimeType := "";
                     rec_stopQueued := false |}])
                 (run [Click; AccessGranted granted; DataAvailable 0 Sample.hi; Click] loaded)))
    as (H & _); [vm_compute; discriminate|vm_compute; reflexivity|reflexivity|].
  rewrite H. vm_compute. reflexivity.
Defined.

Lemma recorded_audio_round_trip_witness :
  exists blob body,
    pendingReads (browser (onstop 0 heard)) = pendingReads (browser heard) ++ [blob] /\
    Base64.decode body = Some (concat (audioChunks (vars heard))).
Proof.
  assert (audioChunks (vars heard) = [Sample.hi]) as Hc by (vm_compute; reflexivity).
  assert (mediaRecorder (vars heard) = Some 0%nat) as Hm by (vm_compute; reflexivity).
  assert (recorders (browser heard) !! 0%nat
          = Some {| rec_stream := 0; rec_state := Inactive;
                    rec_mimeType := "audio/webm;codecs=opus"; rec_stopQueued := true |})
    as Hr by (vm_compute; reflexivity).
  assert (audioChunks (vars heard) <> []) as Hne by (rewrite Hc; discriminate).
  assert (Forall (fun c : Chunk => c <> []) (audioChunks (vars heard))) as Hall
    by (rewrite Hc; apply Forall_singleton; discriminate).
  destruct (recorded_audio_round_trip 0 0 _ heard Hne Hall Hm Hr eq_refl)
    as (blob & body & H1 & _ & _ & H4).
  exists blob, body. split; [exact H1|exact H4].
Defined.

(** The body of the request, at its edges.  A text without a comma is
    sent as it is; so is the data URL of a blob without bytes, prefix
    included, because the empty text after the comma is falsy. *)
Theorem base64Data_fallback :
  (forall text, JS.split "," text = [text] -> base64Data text = text) /\
  (forall blob, blob_bytes blob = [] -> JS.split "," (blob_type blob) = [blob_type blob] ->
     base64Data (readAsDataURL blob) = readAsDataURL blob).
Proof.
  split.
  - intros text H. unfold base64Data. by rewrite H.
  - intros blob Hb Hty. unfold base64Data, readAsDataURL, dataURL_prefix. rewrite Hb.
    cbn [Base64.encode].
    change ";base64," with (";base64" +:+ ",").
    rewrite <- (append_assoc "data:"), <- (append_assoc _ ";base64" ",").
    rewrite !append_assoc.
    rewrite <- (append_assoc "data:"), <- (append_assoc _ ";base64").
    rewrite split_prefix; [done| |done].
    rewrite append_assoc. apply split_append; [done|]. by apply split_append.
Qed.

Lemma base64Data_fallback_witness :
  base64Data "aGkh" = "aGkh" /\
  base64Data (readAsDataURL (new_Blob [] "audio/webm")) = "data:audio/webm;base64,".
Proof.
  destruct base64Data_fallback as [H1 H2]. split.
  - apply H1. reflexivity.
  - rewrite H2; reflexivity.
Defined.

(* ================================================================== *)
(** ** After a recording error, and after any ending *)
(* ================================================================== *)

Section After.

Lemma onerror_recorders (stream : nat) (name : string) (s : State) :
  recorders (browser (onerror stream name s)) = recorders (browser s) /\
  pendingReads (browser (onerror stream name s)) = pendingReads (browser s) /\
  mediaRecorder (vars (onerror stream name s)) = None /\
  status_is_error (onerror stream name s) = true.
Proof. unfold onerror. cbn. by case_match. Qed.

(** With [mediaRecorder] cleared, [onstop] reads and sends nothing:
    either no chunk is held and it reports that, or reading [mimeType]
    throws and nothing runs. *)
Lemma onstop_without_recorder (stream : nat) (s : State) :
  mediaRecorder (vars s) = None ->
  pendingReads (browser (onstop stream s)) = pendingReads (browser s) /\
  inFlight (browser (onstop stream s)) = inFlight (browser s) /\
  (status_is_error s = true -> status_is_error (onstop stream s) = true) /\
  (Idle s -> Idle (onstop stream s)).
Proof.
  intros H. unfold onstop. rewrite H.
  destruct (length (audioChunks (vars s)) =? 0)%nat; [|done].
  split; [done|]. split; [done|]. split; [done|]. intros _. apply resetMicButton_Idle.
Qed.

(** The handler run that ends a cycle leaves the machine Idle and the
    control as enabled as it was. *)
Lemma ends_back_to_Idle (o : Outcome) (s s' : State) :
  ends o s s' ->
  Idle s' /\ micButton_disabled (dom s') = micButton_disabled (dom s) /\
  mediaDevices (browser s') = mediaDevices (browser s).
Proof.
  intros H. destruct H as
    [response data s _ _ _|response s _ _|response s _|message s|blob error s
    |stream s Hc|stream name s|message s].
  1-4: split; [apply sendAudioToApi_settled_Idle|];
       split; [apply sendAudioToApi_settled_keeps_control|];
       by rewrite sendAudioToApi_settled_browser.
  - by repeat split.
  - unfold onstop. rewrite Hc. by repeat split.
  - destruct (onerror_Idle stream name s) as [H1 H2]. split; [done|]. split; [done|].
    unfold onerror. cbn. by case_match.
  - by repeat split.
Qed.

End After.

(** A recording error ends the cycle without sending: when the
    recorder's stop event follows the error, no blob is read and no
    request is issued, the machine is Idle and the status is an error. *)
Theorem recording_error_sends_nothing (r : nat) (rec : Recorder) (name : string) (s : State) :
  recorders (browser s) !! r = Some rec ->
  is_recording rec = true ->
  let s' := run [RecorderError r name; RecorderStop r] s in
  pendingReads (browser s') = pendingReads (browser s) /\
  inFlight (browser s') = inFlight (browser s) /\
  status_is_error s' = true /\
  Idle s'.
Proof.
  intros Hr Hrec. cbv zeta.
  set (s1 := onerror (rec_stream rec) name (update_recorder r MediaRecorder_fail s)).
  assert (step (RecorderError r name) s = s1) as Hs1
    by (cbn [step]; rewrite Hr, Hrec; reflexivity).
  destruct (onerror_recorders (rec_stream rec) name (update_recorder r MediaRecorder_fail s))
    as (Hrs & Hp & Hm & Herr). fold s1 in Hrs, Hp, Hm, Herr.
  destruct (onerror_Idle (rec_stream rec) name (update_recorder r MediaRecorder_fail s))
    as [Hidle _]. fold s1 in Hidle.
  pose proof (onerror_inFlight (rec_stream rec) name (update_recorder r MediaRecorder_fail s))
    as Hf. fold s1 in Hf.
  assert (recorders (browser s1) !! r = Some (MediaRecorder_fail rec)) as Hr1.
  { rewrite Hrs. cbn. by rewrite list_lookup_alter_eq, Hr. }
  rewrite !run_cons, Hs1. cbn [run foldl step]. rewrite Hr1.
  cbn [MediaRecorder_fail MediaRecorder_stop rec_stopQueued rec_stream].
  destruct (onstop_without_recorder (rec_stream rec) (update_recorder r stop_delivered s1) Hm)
    as (-> & -> & He & Hi).
  split; [exact Hp|]. split; [exact Hf|]. split; [by apply He|by apply Hi].
Qed.

Lemma recording_error_sends_nothing_witness :
  let s := run [Click; AccessGranted granted; DataAvailable 0 Sample.hi] loaded in
  inFlight (browser (run [RecorderError 0 "UnknownError"; RecorderStop 0] s)) = [].
Proof.
  cbv zeta.
  assert (recorders (browser (run [Click; AccessGranted granted; DataAvailable 0 Sample.hi]
                                loaded)) !! 0%nat
          = Some {| rec_stream := 0; rec_state := Recording;
                    rec_mimeType := "audio/webm;codecs=opus"; rec_stopQueued := false |})
    as Hr by (vm_compute; reflexivity).
  destruct (recording_error_sends_nothing 0 _ "UnknownError" _ Hr eq_refl) as (_ & H & _).
  rewrite H. vm_compute. reflexivity.
Defined.

(** However a cycle ended, the control is usable again: on an enabled
    control with the media API present, the next press asks for device
    access and shows the request status. *)
Theorem outcome_then_press_restarts (o : Outcome) (s s' : State) :
  ends o s s' ->
  micButton_disabled (dom s) = false ->
  mediaDevices (browser s) = true ->
  Requesting (step Click s') /\
  statusMessage (dom (step Click s')) = "Requesting microphone access..." /\
  status_is_error (step Click s') = false.
Proof.
  intros H Hen Hmd. destruct (ends_back_to_Idle o s s' H) as ((Hrec & _ & _) & Hd & Hm).
  cbn [step]. rewrite Hd, Hen. rewrite (micButton_click_not_recording s' Hrec).
  unfold startRecording, Requesting. rewrite Hm, Hmd. cbn. split; [lia|done].
Qed.

Lemma outcome_then_press_restarts_witness :
  Requesting
    (step Click (sendAudioToApi_settled (Responded Sample.upstream_failure) Sample.sending)).
Proof.
  apply (outcome_then_press_restarts RemoteError Sample.sending).
  - apply (ends_RemoteError Sample.upstream_failure). reflexivity.
  - vm_compute. reflexivity.
  - vm_compute. reflexivity.
Defined.

Lemma onerror_releases_witness :
  released 0 (onerror 0 "UnknownError" (startRecording_granted granted loaded)).
Proof. apply (onerror_releases 0 "UnknownError"). Defined.
